(** * The day-scheduling engine of make_schedule: [src/services/scheduler.ts]

    A shallow embedding of [timeToMinutes], [minutesToTime] and
    [rescheduleDay], and the properties of the specification checked
    against them.

    Numbers.  The source computes with JavaScript doubles.  The model tracks
    the integers that a double holds exactly (magnitude at most 2^53) and
    [NaN]; every other double (a fraction, an infinity, a rounded integer) is
    the single value [Other], about which the model says nothing.  The
    scheduler itself is modelled over [Z]: minutes are integers. *)

From Stdlib Require Import ZArith Lia Bool Ascii String DecimalString Sorted.
From stdpp Require Import base list.

Local Open Scope string_scope.
Local Open Scope Z_scope.

(** ** JavaScript numbers and completions *)

Inductive number : Type :=
| Int (z : Z)   (* an integer-valued double, held exactly *)
| NaN
| Other.        (* any double the model does not track *)

Definition maxSafe : Z := 2 ^ 53.

Definition mkInt (z : Z) : number :=
  if (Z.abs z <=? maxSafe) then Int z else Other.

(** [a * b] and [a + b] on doubles: NaN is absorbing; exact on integers that
    stay in range. *)
Definition mulN (a b : number) : number :=
  match a, b with
  | NaN, _ | _, NaN => NaN
  | Int x, Int y => mkInt (x * y)
  | _, _ => Other
  end.

Definition addN (a b : number) : number :=
  match a, b with
  | NaN, _ | _, NaN => NaN
  | Int x, Int y => mkInt (x + y)
  | _, _ => Other
  end.

(** How a call ends: with a value, or by throwing. *)
Inductive completion (A : Type) : Type :=
| Normal (a : A)
| Throw (error : string).
Arguments Normal {A} a.
Arguments Throw {A} error.

(** ** Strings: [split], [trim], [Number], [toString], [padStart] *)

(** [s.split(sep)] for a one-character separator: always at least one piece. *)
Fixpoint split (sep : ascii) (s : string) : list string :=
  match s with
  | EmptyString => [EmptyString]
  | String c rest =>
      if Ascii.eqb c sep then EmptyString :: split sep rest
      else match split sep rest with
           | piece :: pieces => String c piece :: pieces
           | [] => [String c EmptyString]
           end
  end.

(** White space and line terminators among the code units below 256. *)
Definition isWhiteSpace (c : ascii) : bool :=
  let n := nat_of_ascii c in
  ((9 <=? n) && (n <=? 13) || (n =? 32) || (n =? 160))%nat.

Fixpoint trimStart (l : list ascii) : list ascii :=
  match l with
  | c :: l' => if isWhiteSpace c then trimStart l' else l
  | [] => []
  end.

Definition trim (l : list ascii) : list ascii :=
  rev (trimStart (rev (trimStart l))).

(** The value of a digit in a radix (hexadecimal letters in both cases). *)
Definition digitIn (radix : Z) (c : ascii) : option Z :=
  let n := Z.of_nat (nat_of_ascii c) in
  let v := if (48 <=? n) && (n <=? 57) then n - 48
           else if (97 <=? n) && (n <=? 102) then n - 87
           else if (65 <=? n) && (n <=? 70) then n - 55
           else radix in
  if v <? radix then Some v else None.

(** The longest prefix of digits, as its value read left to right, its
    length, and what follows it. *)
Fixpoint spanDigits (radix acc : Z) (len : nat) (l : list ascii)
  : Z * nat * list ascii :=
  match l with
  | c :: l' =>
      match digitIn radix c with
      | Some v => spanDigits radix (acc * radix + v) (S len) l'
      | None => (acc, len, l)
      end
  | [] => (acc, len, [])
  end.

(** An exponent part: nothing, or [e]/[E], an optional sign and digits up to
    the end.  [Some true] when an exponent is there, [None] when what is
    there is not an exponent part. *)
Definition exponentPart (l : list ascii) : option bool :=
  match l with
  | [] => Some false
  | c :: l' =>
      if Ascii.eqb c "e" || Ascii.eqb c "E" then
        let l'' := match l' with
                   | s :: d => if Ascii.eqb s "+" || Ascii.eqb s "-" then d else l'
                   | [] => l'
                   end in
        match spanDigits 10 0 0 l'' with
        | (_, S _, []) => Some true
        | _ => None
        end
      else None
  end.

(** An unsigned decimal literal: [Infinity], or digits with an optional
    fraction and exponent.  Only a plain run of digits is tracked as an
    integer. *)
Definition unsignedDecimal (l : list ascii) : option number :=
  if String.eqb (string_of_list_ascii l) "Infinity" then Some Other
  else
    match spanDigits 10 0 0 l with
    | (v, n, rest) =>
        match rest with
        | [] => match n with O => None | S _ => Some (Int v) end
        | c :: rest' =>
            if Ascii.eqb c "." then
              match spanDigits 10 0 0 rest' with
              | (_, m, rest'') =>
                  match n, m with
                  | O, O => None
                  | _, _ => match exponentPart rest'' with
                            | Some _ => Some Other
                            | None => None
                            end
                  end
              end
            else
              match n, exponentPart rest with
              | S _, Some _ => Some Other
              | _, _ => None
              end
        end
    end.

Definition negN (a : number) : number :=
  match a with
  | Int z => Int (- z)
  | _ => a
  end.

Definition roundInt (a : number) : number :=
  match a with
  | Int z => mkInt z
  | _ => a
  end.

(** A literal in radix 16, 8 or 2 after its two-character prefix. *)
Definition radixLiteral (radix : Z) (l : list ascii) : number :=
  match spanDigits radix 0 0 l with
  | (v, S _, []) => mkInt v
  | _ => NaN
  end.

Definition radixOf (p : ascii) : option Z :=
  if Ascii.eqb p "x" || Ascii.eqb p "X" then Some 16
  else if Ascii.eqb p "o" || Ascii.eqb p "O" then Some 8
  else if Ascii.eqb p "b" || Ascii.eqb p "B" then Some 2
  else None.

(** [0x], [0o] or [0b] and digits: such a literal takes no sign. *)
Definition prefixedLiteral (l : list ascii) : option number :=
  match l with
  | z :: p :: digits =>
      if Ascii.eqb z "0" then
        match radixOf p with
        | Some radix => Some (radixLiteral radix digits)
        | None => None
        end
      else None
  | _ => None
  end.

Definition signedDecimal (l : list ascii) : option number :=
  match l with
  | c :: l' =>
      if Ascii.eqb c "-" then option_map negN (unsignedDecimal l')
      else if Ascii.eqb c "+" then unsignedDecimal l'
      else unsignedDecimal l
  | [] => None
  end.

(** [Number(s)] on a string: the empty or blank string is 0, a numeric
    literal is its value, anything else is NaN. *)
Definition Number (s : string) : number :=
  let l := trim (list_ascii_of_string s) in
  match l with
  | [] => Int 0
  | _ =>
      match prefixedLiteral l with
      | Some v => v
      | None =>
          match signedDecimal l with
          | Some v => roundInt v
          | None => NaN
          end
      end
  end.

(** An array element that may be missing ([undefined]) used as a number. *)
Definition toNumber (v : option number) : number :=
  match v with
  | Some n => n
  | None => NaN
  end.

(** [z.toString()] for a tracked integer. *)
Definition toString (z : Z) : string := NilZero.string_of_int (Z.to_int z).

Fixpoint repeatChar (n : nat) (c : ascii) : string :=
  match n with
  | O => EmptyString
  | S n' => String c (repeatChar n' c)
  end.

(** [s.padStart(width, c)] *)
Definition padStart (width : nat) (c : ascii) (s : string) : string :=
  repeatChar (width - String.length s) c ++ s.

(** ** The time codec *)

(** [timeToMinutes]: "HH:MM" to minutes from midnight.
    <<
      const [hours, minutes] = time.split(':').map(Number);
      return hours * 60 + minutes;
    >>
    Nothing in it throws: the completion is always [Normal]. *)
Definition timeToMinutes (time : string) : completion number :=
  let parts := map Number (split ":" time) in
  let hours := toNumber (parts !! 0%nat) in
  let minutes := toNumber (parts !! 1%nat) in
  Normal (addN (mulN hours (Int 60)) minutes).

(** [minutesToTime]: minutes to "HH:MM".
    <<
      const h = Math.floor(minutes / 60);
      const m = minutes % 60;
      return `${h.toString().padStart(2, '0')}:${m.toString().padStart(2, '0')}`;
    >>
    [%] takes the sign of the dividend ([Z.rem]); [None] when the argument is
    a number the model does not track. *)
Definition minutesToTime (minutes : number) : option string :=
  match minutes with
  | Int z =>
      let h := z / 60 in
      let m := Z.rem z 60 in
      Some (padStart 2 "0" (toString h) ++ ":" ++ padStart 2 "0" (toString m))
  | NaN => Some "NaN:NaN"
  | Other => None
  end.

(** ** The data model: [src/types.ts] *)

Inductive TaskType : Type := ANCHOR | FLOATING | INTERRUPT.

Inductive TaskStatus : Type := PENDING | SCHEDULED | COMPLETED | ROLLOVER.

Record UserSettings : Type := {
  workStart : string;
  workEnd : string;
  bufferMinutes : Z
}.

(** [deadline] is a [Date], kept as its time value; [None] is a field that
    is absent. *)
Record Task : Type := {
  id : string;
  title : string;
  type : TaskType;
  priority : Z;
  durationMinutes : Z;
  isSplittable : bool;
  deadline : option Z;
  status : TaskStatus;
  fixedStartTime : option string
}.

(** The [id] of a block: [block-<task>] for a fixed task,
    [block-<task>-<five random characters>] for a task placed whole (the
    random suffix is digits and lower-case letters, and is left out), and
    [block-<task>-partA] for the first part of a split. *)
Inductive BlockId : Type :=
| FixedBlock (task : string)
| PlacedBlock (task : string)
| PartABlock (task : string).

Record ScheduleBlock : Type := {
  blockId : BlockId;
  taskId : string;
  taskTitle : string;
  taskType : TaskType;
  startTime : Z;
  endTime : Z;
  isLocked : bool;
  blockPriority : Z;
  blockStatus : TaskStatus
}.

(** An occupied range [{start, end}] and a gap [{start, end, duration}]. *)
Record Interval : Type := { istart : Z; iend : Z }.

Record Gap : Type := { gstart : Z; gend : Z; duration : Z }.

Record Result : Type := {
  blocks : list ScheduleBlock;
  rolloverTasks : list Task
}.

Definition TaskType_eqb (a b : TaskType) : bool :=
  match a, b with
  | ANCHOR, ANCHOR | FLOATING, FLOATING | INTERRUPT, INTERRUPT => true
  | _, _ => false
  end.

Definition TaskStatus_eqb (a b : TaskStatus) : bool :=
  match a, b with
  | PENDING, PENDING | SCHEDULED, SCHEDULED
  | COMPLETED, COMPLETED | ROLLOVER, ROLLOVER => true
  | _, _ => false
  end.

(** ** [Array.prototype.sort] with a comparator

    The sort is stable; for a comparator that orders its arguments
    consistently the result is the one of a stable insertion sort. *)
Section Sort.
Context {A : Type} (cmp : A -> A -> Z).

Fixpoint insertBy (x : A) (l : list A) : list A :=
  match l with
  | [] => [x]
  | y :: l' => if cmp x y <=? 0 then x :: l else y :: insertBy x l'
  end.

Fixpoint sortBy (l : list A) : list A :=
  match l with
  | [] => []
  | x :: l' => insertBy x (sortBy l')
  end.
End Sort.

(** ** [rescheduleDay], step by step *)

(** A number of minutes the scheduler can compute with: an integer.  [None]
    when [timeToMinutes] gives NaN or an untracked number.  The source goes
    on with that number (with NaN the comparisons of the sort, the merge and
    the scan all fail); that arithmetic is outside the model. *)
Definition minutesOf (time : string) : option Z :=
  match timeToMinutes time with
  | Normal (Int z) => Some z
  | _ => None
  end.

Definition isFixed (t : Task) : bool :=
  TaskType_eqb (type t) ANCHOR || TaskType_eqb (type t) INTERRUPT.

(** [tasks.filter(t => t.type === ANCHOR || t.type === INTERRUPT)] *)
Definition fixedTasks (tasks : list Task) : list Task := filter isFixed tasks.

(** [if (task.fixedStartTime)]: the field is there and is not the empty
    string. *)
Definition startOf (t : Task) : option string :=
  match fixedStartTime t with
  | Some EmptyString => None
  | o => o
  end.

Definition lockedBlock (task : Task) (start : Z) : ScheduleBlock :=
  {| blockId := FixedBlock (id task);
     taskId := id task;
     taskTitle := title task;
     taskType := type task;
     startTime := start;
     endTime := start + durationMinutes task;
     isLocked := true;
     blockPriority := priority task;
     blockStatus := SCHEDULED |}.

(** The range a fixed task occupies, the buffer included on both sides. *)
Definition occupiedBy (settings : UserSettings) (task : Task) (start : Z) : Interval :=
  {| istart := Z.max 0 (start - bufferMinutes settings);
     iend := Z.min 1440 (start + durationMinutes task + bufferMinutes settings) |}.

(** The [forEach] over the fixed tasks: the locked blocks and the occupied
    ranges, both in task order.  (The set [processedTasks] is written and
    never read, and is left out.)  [None] when a start time does not read
    as an integer: the source still returns a schedule then, which the model
    does not describe; see [readableStarts]. *)
Fixpoint mapFixed (settings : UserSettings) (fixed : list Task)
  : option (list ScheduleBlock * list Interval) :=
  match fixed with
  | [] => Some ([], [])
  | task :: rest =>
      match startOf task with
      | Some time =>
          match minutesOf time, mapFixed settings rest with
          | Some start, Some (bs, occ) =>
              Some (lockedBlock task start :: bs,
                    occupiedBy settings task start :: occ)
          | _, _ => None
          end
      | None => mapFixed settings rest
      end
  end.

(** [occupied.sort((a, b) => a.start - b.start)] *)
Definition sortOccupied (occupied : list Interval) : list Interval :=
  sortBy (fun a b => istart a - istart b) occupied.

(** The merge loop, with [current] the running range. *)
Fixpoint mergeFrom (current : Interval) (rest : list Interval) : list Interval :=
  match rest with
  | [] => [current]
  | o :: rest' =>
      if istart o <? iend current
      then mergeFrom {| istart := istart current;
                        iend := Z.max (iend current) (iend o) |} rest'
      else current :: mergeFrom o rest'
  end.

Definition mergeOccupied (occupied : list Interval) : list Interval :=
  match occupied with
  | [] => []
  | first :: rest => mergeFrom first rest
  end.

Definition mkGap (s e : Z) : Gap := {| gstart := s; gend := e; duration := e - s |}.

(** The linear scan for gaps from [cursor], and the last gap up to
    [dayEnd]. *)
Fixpoint findGaps (cursor dayEnd : Z) (occupied : list Interval) : list Gap :=
  match occupied with
  | [] => if cursor <? dayEnd then [mkGap cursor dayEnd] else []
  | occ :: rest =>
      if iend occ <=? cursor then findGaps cursor dayEnd rest
      else
        (if cursor <? istart occ then [mkGap cursor (istart occ)] else [])
        ++ findGaps (Z.max cursor (iend occ)) dayEnd rest
  end.

(** The comparator of the floating tasks: priority ascending, then duration
    descending. *)
Definition compareTasks (a b : Task) : Z :=
  if priority a =? priority b
  then durationMinutes b - durationMinutes a
  else priority a - priority b.

Definition isPending (t : Task) : bool :=
  TaskType_eqb (type t) FLOATING && negb (TaskStatus_eqb (status t) COMPLETED).

Definition floatingTasks (tasks : list Task) : list Task :=
  sortBy compareTasks (filter isPending tasks).

(** The state of the fitting loop: the queue, the gaps (mutated in place in
    the source: updated by index here), the blocks pushed so far and the
    rollover list. *)
Record State : Type := {
  queue : list Task;
  gaps : list Gap;
  placed : list ScheduleBlock;
  rollover : list Task
}.

(** [gap.start += consumed; gap.duration -= consumed] ([end] is left as it
    is). *)
Definition consume (gap : Gap) (consumed : Z) : Gap :=
  {| gstart := gstart gap + consumed;
     gend := gend gap;
     duration := duration gap - consumed |}.

Definition floatingBlock (task : Task) (start : Z) : ScheduleBlock :=
  {| blockId := PlacedBlock (id task);
     taskId := id task;
     taskTitle := title task;
     taskType := type task;
     startTime := start;
     endTime := start + durationMinutes task;
     isLocked := false;
     blockPriority := priority task;
     blockStatus := SCHEDULED |}.

Definition partABlock (task : Task) (start partADuration : Z) : ScheduleBlock :=
  {| blockId := PartABlock (id task);
     taskId := id task;
     taskTitle := title task ++ " (Part 1)";
     taskType := type task;
     startTime := start;
     endTime := start + partADuration;
     isLocked := false;
     blockPriority := priority task;
     blockStatus := SCHEDULED |}.

(** [{...task, title: `${task.title} (Part 2)`, durationMinutes: partBDuration}] *)
Definition partB (task : Task) (partBDuration : Z) : Task :=
  {| id := id task;
     title := title task ++ " (Part 2)";
     type := type task;
     priority := priority task;
     durationMinutes := partBDuration;
     isSplittable := isSplittable task;
     deadline := deadline task;
     status := status task;
     fixedStartTime := fixedStartTime task |}.

(** [[...gaps].sort((a, b) => b.duration - a.duration)[0]]: the copy shares
    its gap objects with [gaps], so the gap comes with its index there. *)
Definition sortedGaps (gaps : list Gap) : list (nat * Gap) :=
  sortBy (fun a b => duration (snd b) - duration (snd a)) (imap pair gaps).

Definition largestGap (gaps : list Gap) : option (nat * Gap) :=
  head (sortedGaps gaps).

(** The first gap, in list order, that the task fits in. *)
Definition firstFit (task : Task) (gaps : list Gap) : option (nat * Gap) :=
  list_find (fun gap => durationMinutes task <= duration gap) gaps.

Definition rollOver (st : State) (task : Task) (queue' : list Task) : State :=
  {| queue := queue'; gaps := gaps st; placed := placed st;
     rollover := rollover st ++ [task] |}.

(** One iteration of [while (queue.length > 0)]; [None] when the queue is
    empty. *)
Definition step (settings : UserSettings) (st : State) : option State :=
  match queue st with
  | [] => None
  | task :: queue' =>
      match firstFit task (gaps st) with
      | Some (i, gap) =>
          let consumed := durationMinutes task + bufferMinutes settings in
          Some {| queue := queue';
                  gaps := <[i := consume gap consumed]> (gaps st);
                  placed := placed st ++ [floatingBlock task (gstart gap)];
                  rollover := rollover st |}
      | None =>
          if isSplittable task && (30 <? durationMinutes task) then
            match largestGap (gaps st) with
            | Some (i, largest) =>
                if 15 <=? duration largest then
                  let fitDuration := duration largest in
                  let actualFit := Z.max 15 (fitDuration - bufferMinutes settings) in
                  if actualFit <? 15 then Some (rollOver st task queue')
                  else
                    let partADuration := actualFit in
                    let partBDuration := durationMinutes task - partADuration in
                    Some {| queue := partB task partBDuration :: queue';
                            gaps := <[i := consume largest
                                             (partADuration + bufferMinutes settings)]>
                                      (gaps st);
                            placed := placed st
                                      ++ [partABlock task (gstart largest) partADuration];
                            rollover := rollover st |}
                else Some (rollOver st task queue')
            | None => Some (rollOver st task queue')
            end
          else Some (rollOver st task queue')
      end
  end.

(** The loop, run for at most [fuel] iterations. *)
Fixpoint fitLoop (fuel : nat) (settings : UserSettings) (st : State) : option State :=
  match step settings st with
  | None => Some st
  | Some st' =>
      match fuel with
      | O => None
      | S fuel' => fitLoop fuel' settings st'
      end
  end.

(** A bound on the number of iterations a queue needs. *)
Definition loopBound (q : list Task) : nat :=
  foldr (fun t n => (S (Z.to_nat (durationMinutes t)) + n)%nat) O q.

(** The gaps the fitting loop starts from. *)
Definition initialGaps (tasks : list Task) (settings : UserSettings)
  : option (list Gap) :=
  match mapFixed settings (fixedTasks tasks),
        minutesOf "06:00", minutesOf "23:00" with
  | Some (_, occupied), Some cursor, Some dayEnd =>
      Some (findGaps cursor dayEnd (mergeOccupied (sortOccupied occupied)))
  | _, _, _ => None
  end.

Definition rescheduleDay (tasks : list Task) (settings : UserSettings)
  : option Result :=
  match mapFixed settings (fixedTasks tasks), initialGaps tasks settings with
  | Some (fixedBlocks, _), Some gaps0 =>
      let st := {| queue := floatingTasks tasks;
                   gaps := gaps0;
                   placed := fixedBlocks;
                   rollover := [] |} in
      match fitLoop (loopBound (queue st)) settings st with
      | Some st' => Some {| blocks := placed st'; rolloverTasks := rollover st' |}
      | None => None
      end
  | _, _ => None
  end.

(** * Definitions for the properties *)

Definition isDigit (c : ascii) : bool :=
  match digitIn 10 c with
  | Some _ => true
  | None => false
  end.

(** A clock string "HH:MM": two digits, a colon, two digits. *)
Definition clockString (h1 h2 m1 m2 : ascii) : string :=
  String h1 (String h2 (String ":" (String m1 (String m2 EmptyString)))).

Definition wellFormedTime (time : string) : Prop :=
  exists h1 h2 m1 m2,
    time = clockString h1 h2 m1 m2 /\
    isDigit h1 = true /\ isDigit h2 = true /\
    isDigit m1 = true /\ isDigit m2 = true.

Definition digitValue (c : ascii) : Z := Z.of_nat (nat_of_ascii c) - 48.

Definition digitChar (d : Z) : ascii := ascii_of_nat (Z.to_nat (48 + d)).

(** The canonical string of an hour and a minute, written without the
    codec. *)
Definition canonicalTime (h m : Z) : string :=
  clockString (digitChar (h / 10)) (digitChar (h mod 10))
              (digitChar (m / 10)) (digitChar (m mod 10)).

Definition decimalDigits : list ascii :=
  ["0"; "1"; "2"; "3"; "4"; "5"; "6"; "7"; "8"; "9"]%char.

Definition returnsInt (c : completion number) (z : Z) : bool :=
  match c with
  | Normal (Int v) => v =? z
  | _ => false
  end.

Definition roundTrips (n : Z) : bool :=
  match minutesToTime (Int n) with
  | Some s => String.eqb s (canonicalTime (n / 60) (n mod 60))
              && returnsInt (timeToMinutes s) n
  | None => false
  end.

(** What an iteration does to the state, case by case. *)
Inductive StepCase (settings : UserSettings) (st st' : State) : Prop :=
| step_fit (task : Task) (rest : list Task) (i : nat) (gap : Gap) :
    queue st = task :: rest ->
    gaps st !! i = Some gap ->
    durationMinutes task <= duration gap ->
    st' = {| queue := rest;
             gaps := <[i := consume gap (durationMinutes task + bufferMinutes settings)]>
                       (gaps st);
             placed := placed st ++ [floatingBlock task (gstart gap)];
             rollover := rollover st |} ->
    StepCase settings st st'
| step_split (task : Task) (rest : list Task) (i : nat) (largest : Gap) (fit : Z) :
    queue st = task :: rest ->
    gaps st !! i = Some largest ->
    (forall g, g ∈ gaps st -> duration g < durationMinutes task) ->
    (forall g, g ∈ gaps st -> duration g <= duration largest) ->
    isSplittable task = true ->
    30 < durationMinutes task ->
    15 <= duration largest ->
    fit = Z.max 15 (duration largest - bufferMinutes settings) ->
    st' = {| queue := partB task (durationMinutes task - fit) :: rest;
             gaps := <[i := consume largest (fit + bufferMinutes settings)]> (gaps st);
             placed := placed st ++ [partABlock task (gstart largest) fit];
             rollover := rollover st |} ->
    StepCase settings st st'
| step_rollover (task : Task) (rest : list Task) :
    queue st = task :: rest ->
    (forall g, g ∈ gaps st -> duration g < durationMinutes task) ->
    st' = rollOver st task rest ->
    StepCase settings st st'.

(** A block lies within the original extent of a gap. *)
Definition within (g : Gap) (blk : ScheduleBlock) : Prop :=
  gstart g <= startTime blk /\ endTime blk <= gend g.

(** Gaps that are not empty, with their cached duration, and in ascending
    order without overlap. *)
Definition GapsOrdered (gs : list Gap) : Prop :=
  (forall k g, gs !! k = Some g ->
     gstart g < gend g /\ duration g = gend g - gstart g) /\
  (forall i j gi gj, (i < j)%nat -> gs !! i = Some gi -> gs !! j = Some gj ->
     gend gi <= gstart gj).

(** The invariant of the loop: every gap keeps its end and only loses
    time at its start; every floating block lies in an original gap,
    before the current start of that gap by the buffer; within a gap,
    blocks follow each other by the buffer. *)
Record Layout (settings : UserSettings) (gaps0 : list Gap)
    (fixedBlocks : list ScheduleBlock) (st : State) : Prop := {
  layout_length : length (gaps st) = length gaps0;
  layout_gaps : forall k g0 g,
    gaps0 !! k = Some g0 -> gaps st !! k = Some g ->
    gend g = gend g0 /\ gstart g + duration g = gend g0 /\ gstart g0 <= gstart g;
  layout_blocks : forall blk,
    blk ∈ placed st -> isLocked blk = false ->
    startTime blk < endTime blk /\
    exists k g0 g,
      gaps0 !! k = Some g0 /\ gaps st !! k = Some g /\
      within g0 blk /\ endTime blk + bufferMinutes settings <= gstart g;
  layout_order : forall i j bi bj,
    (i < j)%nat -> placed st !! i = Some bi -> placed st !! j = Some bj ->
    isLocked bi = false -> isLocked bj = false ->
    forall g0, g0 ∈ gaps0 -> within g0 bi -> within g0 bj ->
    endTime bi + bufferMinutes settings <= startTime bj;
  layout_queue : forall t, t ∈ queue st -> 0 < durationMinutes t;
  layout_locked : forall blk,
    blk ∈ placed st -> isLocked blk = true -> blk ∈ fixedBlocks
}.

(** [m] covers [o]. *)
Definition covers (m o : Interval) : Prop :=
  istart m <= istart o /\ iend o <= iend m.

Definition byStart (a b : Interval) : Prop := istart a <= istart b.

(** A range as the fixed pass makes them, seen from the scan: it ends by
    24:00, and it is not reversed unless it ends at 24:00 or before the scan
    starts. *)
Definition okInterval (o : Interval) : Prop :=
  iend o <= 1440 /\ (istart o <= iend o \/ iend o = 1440 \/ iend o <= 360).

Definition gapOk (cursor : Z) (g : Gap) : Prop :=
  cursor <= gstart g /\ gstart g < gend g /\
  duration g = gend g - gstart g /\ gstart g < 1440.

Definition gapBefore (g1 g2 : Gap) : Prop := gend g1 <= gstart g2.

Definition sumOf {A : Type} (f : A -> Z) (l : list A) : Z :=
  foldr (fun x acc => f x + acc) 0 l.

(** 1 for a task with the id [i]; 1 for a block of a task placed whole (or of
    a last remainder placed whole) with the id [i]. *)
Definition hasId (i : string) (t : Task) : Z :=
  if String.eqb (id t) i then 1 else 0.

Definition isWhole (i : string) (blk : ScheduleBlock) : Z :=
  match blockId blk with
  | PlacedBlock j => if String.eqb j i then 1 else 0
  | _ => 0
  end.

(** The minutes of a task with the id [i]; the minutes of a floating block
    of the task [i]. *)
Definition taskMinutes (i : string) (t : Task) : Z :=
  if String.eqb (id t) i then durationMinutes t else 0.

Definition blockMinutes (i : string) (blk : ScheduleBlock) : Z :=
  if negb (isLocked blk) && String.eqb (taskId blk) i
  then endTime blk - startTime blk else 0.

Definition isPartA (blk : ScheduleBlock) : bool :=
  match blockId blk with
  | PartABlock _ => true
  | _ => false
  end.

(** What the blocks, the rollover list and the queue hold together, counted
    by [fb] on blocks and by [ft] on tasks. *)
Definition account (fb : ScheduleBlock -> Z) (ft : Task -> Z) (st : State) : Z :=
  sumOf fb (placed st) + sumOf ft (rollover st) + sumOf ft (queue st).

(** Only floating tasks are queued or rolled over. *)
Definition allFloating (st : State) : Prop :=
  forall t, t ∈ (queue st ++ rollover st)%list -> type t = FLOATING.

(** Every first part of a split is at least 15 minutes long. *)
Definition partsLong (st : State) : Prop :=
  forall blk, blk ∈ placed st -> isPartA blk = true ->
    15 <= endTime blk - startTime blk.

Definition positiveDurations (tasks : list Task) : Prop :=
  Forall (fun t => 0 < durationMinutes t) tasks.

(** * Sample inputs *)

Definition task (i : string) (ty : TaskType) (p d : Z) (sp : bool)
    (fixed : option string) : Task :=
  {| id := i; title := "T" ++ i; type := ty; priority := p;
     durationMinutes := d; isSplittable := sp; deadline := None;
     status := PENDING; fixedStartTime := fixed |}.

Definition withBuffer (b : Z) : UserSettings :=
  {| workStart := "09:00"; workEnd := "17:00"; bufferMinutes := b |}.

(** The blocks of a result as (task, start, end, locked) and its rollover
    as (task, minutes). *)
Definition times (r : option Result)
  : option (list (string * Z * Z * bool) * list (string * Z)) :=
  match r with
  | Some r => Some (map (fun b => (taskId b, startTime b, endTime b, isLocked b)) (blocks r),
                    map (fun t => (id t, durationMinutes t)) (rolloverTasks r))
  | None => None
  end.

Definition gap24Tasks : list Task :=
  [task "1" ANCHOR 1 976 false (Some "06:34"); task "A" FLOATING 1 40 true None].

Definition overlappingAnchors : list Task :=
  [task "1" ANCHOR 1 60 false (Some "09:00");
   task "2" ANCHOR 2 60 false (Some "09:30")].

Definition anchorAndTask : list Task :=
  [task "1" ANCHOR 1 90 false (Some "09:00"); task "A" FLOATING 1 120 false None].

Definition twoTasks : list Task :=
  [task "A" FLOATING 1 60 false None; task "B" FLOATING 2 30 false None].

Definition earlyAnchor : list Task :=
  [task "1" ANCHOR 1 30 false (Some "05:00")].

Definition anchorWithoutStart : list Task :=
  [task "1" ANCHOR 1 30 false None].

Definition longTask : list Task := [task "A" FLOATING 1 1100 true None].

Definition threeGaps : list Task :=
  [task "1" ANCHOR 1 60 false (Some "07:00");
   task "2" ANCHOR 1 60 false (Some "09:00");
   task "3" ANCHOR 1 770 false (Some "10:10");
   task "A" FLOATING 1 130 true None].

(** The kind and the length of the blocks that are not locked. *)
Definition floatingParts (r : Result) : list (BlockId * Z) :=
  map (fun blk => (blockId blk, endTime blk - startTime blk))
      (filter (fun blk => negb (isLocked blk)) (blocks r)).

(** * The callers in [src/App.tsx] *)

(** [setTasks(prev => [...prev, ...newTasks])] *)
Definition addTask (prev newTasks : list Task) : list Task :=
  (prev ++ newTasks)%list.

(** [setTasks(prev => prev.filter(t => t.id !== taskId))] *)
Definition deleteTask (taskId : string) (prev : list Task) : list Task :=
  filter (fun t => negb (String.eqb (id t) taskId)) prev.

Definition PIXELS_PER_MINUTE : Z := 2.

(** [timeToMinutes("06:00")], as an integer. *)
Definition START_OF_DAY_MINUTES : option Z := minutesOf "06:00".

(** [(timeToMinutes("23:00") - START_OF_DAY_MINUTES) * PIXELS_PER_MINUTE] *)
Definition VIEW_HEIGHT : option Z :=
  match minutesOf "23:00", START_OF_DAY_MINUTES with
  | Some dayEnd, Some dayStart => Some ((dayEnd - dayStart) * PIXELS_PER_MINUTE)
  | _, _ => None
  end.

(** The [top] and the [height] of [getBlockStyle], as numbers. *)
Definition blockGeometry (block : ScheduleBlock) : option (Z * Z) :=
  match START_OF_DAY_MINUTES with
  | Some dayStart =>
      Some ((startTime block - dayStart) * PIXELS_PER_MINUTE,
            (endTime block - startTime block) * PIXELS_PER_MINUTE)
  | None => None
  end.

Record BlockStyle : Type := { cssTop : string; cssHeight : string }.

(** [{ top: `${top}px`, height: `${height}px` }] *)
Definition getBlockStyle (block : ScheduleBlock) : option BlockStyle :=
  match blockGeometry block with
  | Some (top, height) =>
      Some {| cssTop := toString top ++ "px"; cssHeight := toString height ++ "px" |}
  | None => None
  end.

(** * Definitions for the further properties *)

(** A string without a colon. *)
Fixpoint noColon (s : string) : bool :=
  match s with
  | EmptyString => true
  | String c rest => negb (Ascii.eqb c ":") && noColon rest
  end.

(** What reading back [minutesToTime n] gives, for an integer [n]. *)
Definition readsBack (n expected : Z) : bool :=
  match minutesToTime (Int n) with
  | Some s => returnsInt (timeToMinutes s) expected
  | None => false
  end.

(** [t] lies in the range [o], end excluded. *)
Definition inRange (t : Z) (o : Interval) : Prop := istart o <= t < iend o.

Definition inGap (t : Z) (g : Gap) : Prop := gstart g <= t < gend g.

(** The order of the task selector: priority ascending, then duration
    descending. *)
Definition taskBefore (a b : Task) : Prop :=
  priority a < priority b \/
  (priority a = priority b /\ durationMinutes b <= durationMinutes a).

Definition hasStart (t : Task) : bool :=
  match startOf t with
  | Some _ => true
  | None => false
  end.

(** [t] is the task [t0] of the input or a remainder of it: all fields but
    the title and the duration are those of [t0], and it is no longer. *)
Definition remainderOf (t0 t : Task) : Prop :=
  id t = id t0 /\ type t = type t0 /\ priority t = priority t0 /\
  isSplittable t = isSplittable t0 /\ status t = status t0 /\
  deadline t = deadline t0 /\ fixedStartTime t = fixedStartTime t0 /\
  durationMinutes t <= durationMinutes t0.

(** The state in which the fitting loop of [rescheduleDay] ends. *)
Definition finalState (tasks : list Task) (settings : UserSettings)
  : option State :=
  match mapFixed settings (fixedTasks tasks), initialGaps tasks settings with
  | Some (fixedBlocks, _), Some gaps0 =>
      fitLoop (loopBound (floatingTasks tasks)) settings
        {| queue := floatingTasks tasks; gaps := gaps0;
           placed := fixedBlocks; rollover := [] |}
  | _, _ => None
  end.

(** Where the tasks and the floating blocks of a state come from: every
    task in the queue or the rollover list is a pending task of [tasks] or a
    remainder of one, and every floating block carries the id and the
    priority of such a task; a first part of a split belongs to a splittable
    task of more than 30 minutes. *)
Definition Provenance (tasks : list Task) (st : State) : Prop :=
  (forall t, t ∈ (queue st ++ rollover st)%list ->
     exists t0, t0 ∈ tasks /\ isPending t0 = true /\ remainderOf t0 t) /\
  (forall blk, blk ∈ placed st -> isLocked blk = false ->
     exists t0, t0 ∈ tasks /\ isPending t0 = true /\
       taskId blk = id t0 /\ taskType blk = FLOATING /\
       blockPriority blk = priority t0 /\ blockStatus blk = SCHEDULED /\
       (isPartA blk = true -> isSplittable t0 = true /\ 30 < durationMinutes t0)).

(** No task of the rollover list fits in what is left of a gap; the queued
    tasks have positive durations. *)
Definition Justified (st : State) : Prop :=
  (forall t, t ∈ queue st -> 0 < durationMinutes t) /\
  (forall t g, t ∈ rollover st -> g ∈ gaps st -> duration g < durationMinutes t).

(** The state [st] with more tasks waiting behind its queue. *)
Definition queuedBehind (extra : list Task) (st : State) : State :=
  {| queue := queue st ++ extra; gaps := gaps st;
     placed := placed st; rollover := rollover st |}.

(** The tasks the engine looks at: the Floating ones that are not
    Completed, and the Anchor and Interrupt ones with a start time. *)
Definition countsForSchedule (t : Task) : bool :=
  isPending t || (isFixed t && hasStart t).

(** The fixed start times that the model follows: every Anchor or Interrupt
    task with a start time has one that [timeToMinutes] reads as an integer
    (hours and minutes written as integers, as in "HH:MM"). *)
Definition readableStart (t : Task) : Prop :=
  isFixed t = true ->
  forall time, startOf t = Some time ->
    exists start, timeToMinutes time = Normal (Int start).

Definition readableStarts (tasks : list Task) : Prop := Forall readableStart tasks.

(** Three tasks for one gap, the second of a duration below zero. *)
Definition negativeDuration : list Task :=
  [task "A" FLOATING 1 100 false None;
   task "B" FLOATING 2 (-30) false None;
   task "C" FLOATING 3 10 false None].

Definition threeShortTasks : list Task :=
  [task "A" FLOATING 1 100 false None;
   task "B" FLOATING 2 10 false None;
   task "C" FLOATING 3 10 false None].

(** * Properties *)

(** ** Sample runs *)

Example timeToMinutes_0600 : timeToMinutes "06:00" = Normal (Int 360).
Proof. reflexivity. Qed.
Example timeToMinutes_colon : timeToMinutes ":" = Normal (Int 0).
Proof. reflexivity. Qed.
Example timeToMinutes_abc : timeToMinutes "abc" = Normal NaN.
Proof. reflexivity. Qed.
Example timeToMinutes_hex : timeToMinutes "0x10: 5 " = Normal (Int 965).
Proof. reflexivity. Qed.
Example timeToMinutes_frac : timeToMinutes "1.5:00" = Normal Other.
Proof. reflexivity. Qed.
Example timeToMinutes_plus : timeToMinutes "+:1" = Normal NaN.
Proof. reflexivity. Qed.
Example minutesToTime_neg : minutesToTime (Int (-5)) = Some "-1:-5".
Proof. reflexivity. Qed.
Example minutesToTime_545 : minutesToTime (Int 545) = Some "09:05".
Proof. reflexivity. Qed.

(** An anchor 09:00-10:30 with a buffer of 15 and a task of 120 minutes: the
    task goes to 06:00-08:00. *)
Example run_anchor_and_task :
  times (rescheduleDay anchorAndTask (withBuffer 15))
  = Some ([("1", 540, 630, true); ("A", 360, 480, false)], []).
Proof. reflexivity. Qed.

(** A single gap of 50 minutes and a buffer of 10: the task of priority 1
    (30 minutes) is placed, the task of priority 3 (60 minutes) rolls over. *)
Example run_priority_first :
  times (rescheduleDay
           [task "0" ANCHOR 1 950 false (Some "07:00");
            task "L" FLOATING 3 60 false None;
            task "H" FLOATING 1 30 false None] (withBuffer 10))
  = Some ([("0", 420, 1370, true); ("H", 360, 390, false)], [("L", 60)]).
Proof. reflexivity. Qed.

(** A largest gap of 25 minutes and a buffer of 10: a split of 15 minutes. *)
Example run_split_at_15 :
  times (rescheduleDay
           [task "0" ANCHOR 1 975 false (Some "06:35");
            task "A" FLOATING 1 40 true None] (withBuffer 10))
  = Some ([("0", 395, 1370, true); ("A", 360, 375, false)], [("A", 25)]).
Proof. reflexivity. Qed.

(** A floating task can end after 23:00 when an anchor starts after 23:00:
    the gap before that anchor runs up to its start. *)
Example run_late_anchor :
  times (rescheduleDay
           [task "0" ANCHOR 1 30 false (Some "23:30");
            task "A" FLOATING 1 1050 false None] (withBuffer 0))
  = Some ([("0", 1410, 1440, true); ("A", 360, 1410, false)], []).
Proof. reflexivity. Qed.

Example run_empty :
  rescheduleDay [] (withBuffer 15) = Some {| blocks := []; rolloverTasks := [] |}.
Proof. reflexivity. Qed.

(** A fixed start time that is not a number leaves the integer model. *)
Example run_unparsed_start :
  rescheduleDay [task "0" ANCHOR 1 30 false (Some "soon")] (withBuffer 15) = None.
Proof. reflexivity. Qed.

(** ** The time codec *)

Lemma isDigit_decimalDigits (c : ascii) :
  isDigit c = true -> In c decimalDigits.
Proof.
  destruct c as [[] [] [] [] [] [] [] []]; vm_compute; intros H;
    first [ discriminate H | tauto ].
Qed.

Lemma forallb_range (P : Z -> bool) (n : nat) :
  forallb P (map Z.of_nat (seq 0 n)) = true ->
  forall z, 0 <= z < Z.of_nat n -> P z = true.
Proof.
  intros H z Hz. rewrite forallb_forall in H. apply H.
  apply in_map_iff. exists (Z.to_nat z). split; [lia |].
  apply in_seq. lia.
Qed.

Lemma returnsInt_true (c : completion number) (z : Z) :
  returnsInt c z = true -> c = Normal (Int z).
Proof.
  destruct c as [[v | |] | e]; simpl; try discriminate.
  intros H. apply Z.eqb_eq in H. now subst.
Qed.

Lemma timeToMinutes_clockString (h1 h2 m1 m2 : ascii) :
  isDigit h1 = true -> isDigit h2 = true ->
  isDigit m1 = true -> isDigit m2 = true ->
  timeToMinutes (clockString h1 h2 m1 m2)
  = Normal (Int ((10 * digitValue h1 + digitValue h2) * 60
                 + (10 * digitValue m1 + digitValue m2))).
Proof.
  intros H1 H2 H3 H4. apply returnsInt_true.
  assert (Hall :
    forallb (fun a => forallb (fun b => forallb (fun c => forallb (fun d =>
      returnsInt (timeToMinutes (clockString a b c d))
        ((10 * digitValue a + digitValue b) * 60
         + (10 * digitValue c + digitValue d)))
      decimalDigits) decimalDigits) decimalDigits) decimalDigits = true)
    by (vm_compute; reflexivity).
  rewrite forallb_forall in Hall.
  specialize (Hall h1 (isDigit_decimalDigits _ H1)). rewrite forallb_forall in Hall.
  specialize (Hall h2 (isDigit_decimalDigits _ H2)). rewrite forallb_forall in Hall.
  specialize (Hall m1 (isDigit_decimalDigits _ H3)). rewrite forallb_forall in Hall.
  exact (Hall m2 (isDigit_decimalDigits _ H4)).
Qed.

Lemma addN_NaN_r (a : number) : addN a NaN = NaN.
Proof. now destruct a. Qed.

Lemma timeToMinutes_no_colon (time : string) :
  length (split ":" time) = 1%nat -> timeToMinutes time = Normal NaN.
Proof.
  intros H. unfold timeToMinutes.
  destruct (split ":" time) as [| p [| q l]]; try discriminate H.
  simpl. now rewrite addN_NaN_r.
Qed.

Lemma roundTrips_day : forall n, 0 <= n < 1440 -> roundTrips n = true.
Proof.
  apply (forallb_range roundTrips 1440). vm_compute. reflexivity.
Qed.

Lemma roundTrips_spec (n : Z) :
  roundTrips n = true ->
  minutesToTime (Int n) = Some (canonicalTime (n / 60) (n mod 60)) /\
  timeToMinutes (canonicalTime (n / 60) (n mod 60)) = Normal (Int n).
Proof.
  unfold roundTrips. destruct (minutesToTime (Int n)) as [s |]; [| discriminate].
  intros H. apply andb_true_iff in H as [Hs Hr].
  apply String.eqb_eq in Hs. subst s. split; [reflexivity |].
  now apply returnsInt_true.
Qed.

(** ** Sorting *)

Section SortFacts.
Context {A : Type} (cmp : A -> A -> Z).

Lemma insertBy_perm (x : A) (l : list A) : insertBy cmp x l ≡ₚ x :: l.
Proof.
  induction l as [| y l IH]; simpl; [reflexivity |].
  destruct (cmp x y <=? 0); [reflexivity |].
  rewrite IH. apply Permutation_swap.
Qed.

Lemma sortBy_perm (l : list A) : sortBy cmp l ≡ₚ l.
Proof.
  induction l as [| x l IH]; simpl; [reflexivity |].
  rewrite insertBy_perm. now rewrite IH.
Qed.

Lemma sortBy_elem_of (x : A) (l : list A) : x ∈ sortBy cmp l <-> x ∈ l.
Proof. now rewrite sortBy_perm. Qed.

(** A comparator that is the difference of a key. *)
Context (key : A -> Z) (Hcmp : forall a b, cmp a b = key a - key b).

Lemma insertBy_sorted (x : A) (l : list A) :
  StronglySorted (fun a b => key a <= key b) l ->
  StronglySorted (fun a b => key a <= key b) (insertBy cmp x l).
Proof.
  induction 1 as [| y l Hs IH Hy]; simpl.
  - repeat constructor.
  - destruct (Z.leb_spec (cmp x y) 0) as [Hle | Hgt]; rewrite Hcmp in *.
    + constructor; [now constructor |].
      constructor; [lia |].
      eapply Forall_impl; [exact Hy |]. simpl. intros; lia.
    + constructor; [exact IH |].
      rewrite insertBy_perm. constructor; [lia | exact Hy].
Qed.

Lemma sortBy_sorted (l : list A) :
  StronglySorted (fun a b => key a <= key b) (sortBy cmp l).
Proof.
  induction l as [| x l IH]; simpl; [constructor |].
  now apply insertBy_sorted.
Qed.
End SortFacts.

Lemma sortOccupied_perm (occupied : list Interval) :
  sortOccupied occupied ≡ₚ occupied.
Proof. apply sortBy_perm. Qed.

Lemma sortOccupied_sorted (occupied : list Interval) :
  StronglySorted (fun a b => istart a <= istart b) (sortOccupied occupied).
Proof. now apply sortBy_sorted. Qed.

Lemma floatingTasks_perm (tasks : list Task) :
  floatingTasks tasks ≡ₚ filter isPending tasks.
Proof. apply sortBy_perm. Qed.

(** The largest gap is a gap of the list, at the index it comes with, and no
    gap is longer. *)
Lemma largestGap_lookup (gs : list Gap) (i : nat) (g : Gap) :
  largestGap gs = Some (i, g) -> gs !! i = Some g.
Proof.
  unfold largestGap, sortedGaps. intros H.
  apply head_Some in H as [l' Hl'].
  assert (Hin : (i, g) ∈ imap pair gs).
  { eapply sortBy_elem_of. rewrite Hl'. apply list_elem_of_here. }
  revert Hin. intros H.
  apply elem_of_lookup_imap in H as (j & y & Heq & Hj).
  now inversion Heq; subst.
Qed.

Lemma largestGap_largest (gs : list Gap) (i : nat) (g : Gap) :
  largestGap gs = Some (i, g) ->
  forall g', g' ∈ gs -> duration g' <= duration g.
Proof.
  unfold largestGap, sortedGaps. intros H g' Hg'.
  assert (Hs : StronglySorted (fun a b : nat * Gap => - duration (snd a) <= - duration (snd b))
                 (sortBy (fun a b => duration (snd b) - duration (snd a)) (imap pair gs))).
  { apply sortBy_sorted. intros a b. lia. }
  apply list_elem_of_lookup in Hg' as [j Hj].
  pose proof (elem_of_lookup_imap_2 pair gs g' j Hj) as Hin.
  apply (sortBy_elem_of (fun a b : nat * Gap => duration (snd b) - duration (snd a))) in Hin.
  destruct (sortBy _ (imap pair gs)) as [| h l]; [discriminate H |].
  simpl in H. inversion H; subst h.
  apply elem_of_cons in Hin as [Heq | Hin]; [inversion Heq; simpl; lia |].
  apply StronglySorted_inv in Hs as [_ Hall].
  rewrite Forall_forall in Hall. specialize (Hall _ Hin). simpl in Hall. lia.
Qed.

(** ** One iteration of the fitting loop *)

Lemma firstFit_None (task : Task) (gs : list Gap) :
  firstFit task gs = None ->
  forall g, g ∈ gs -> duration g < durationMinutes task.
Proof.
  unfold firstFit. intros H g Hg.
  apply list_find_None in H. rewrite Forall_forall in H.
  specialize (H g Hg). simpl in H. lia.
Qed.

Lemma step_cases (settings : UserSettings) (st st' : State) :
  step settings st = Some st' -> StepCase settings st st'.
Proof.
  unfold step. destruct (queue st) as [| task rest] eqn:Hq; [discriminate |].
  destruct (firstFit task (gaps st)) as [[i gap] |] eqn:Hfit.
  - intros H. inversion H; subst st'.
    unfold firstFit in Hfit. apply list_find_Some in Hfit as (Hi & Hd & _).
    now apply (step_fit _ _ _ task rest i gap).
  - pose proof (firstFit_None _ _ Hfit) as Hsmall.
    destruct (isSplittable task) eqn:Hsp; simpl;
      [| intros H; inversion H; now apply (step_rollover _ _ _ task rest) ].
    destruct (Z.ltb_spec 30 (durationMinutes task)) as [H30 | H30];
      [| intros H; inversion H; now apply (step_rollover _ _ _ task rest) ].
    destruct (largestGap (gaps st)) as [[i largest] |] eqn:Hl;
      [| intros H; inversion H; now apply (step_rollover _ _ _ task rest) ].
    destruct (Z.leb_spec 15 (duration largest)) as [H15 | H15];
      [| intros H; inversion H; now apply (step_rollover _ _ _ task rest) ].
    destruct (Z.ltb_spec (Z.max 15 (duration largest - bufferMinutes settings)) 15)
      as [Hdead | Hlive]; [lia |].
    intros H. inversion H; subst st'.
    eapply (step_split _ _ _ task rest i largest); eauto.
    + now apply largestGap_lookup.
    + now apply largestGap_largest with (i := i).
Qed.

Lemma step_None (settings : UserSettings) (st : State) :
  step settings st = None <-> queue st = [].
Proof.
  unfold step. destruct (queue st) as [| task rest]; [tauto |].
  split; [| discriminate].
  destruct (firstFit task (gaps st)) as [[i gap] |]; [discriminate |].
  destruct (isSplittable task && (30 <? durationMinutes task)); [| discriminate].
  destruct (largestGap (gaps st)) as [[i largest] |]; [| discriminate].
  destruct (15 <=? duration largest); [| discriminate].
  destruct (Z.max 15 (duration largest - bufferMinutes settings) <? 15); discriminate.
Qed.

(** A property kept by every iteration holds when the loop ends. *)
Lemma fitLoop_invariant (settings : UserSettings) (P : State -> Prop) :
  (forall st st', P st -> step settings st = Some st' -> P st') ->
  forall fuel st st', P st -> fitLoop fuel settings st = Some st' -> P st'.
Proof.
  intros Hstep. induction fuel as [| fuel IH]; intros st st' HP; simpl.
  - destruct (step settings st); [discriminate |]. intros H. now inversion H; subst.
  - destruct (step settings st) as [st1 |] eqn:Hs.
    + apply IH. eapply Hstep; eauto.
    + intros H. now inversion H; subst.
Qed.

Lemma fitLoop_queue_empty (settings : UserSettings) (fuel : nat) (st st' : State) :
  fitLoop fuel settings st = Some st' -> queue st' = [].
Proof.
  revert st. induction fuel as [| fuel IH]; intros st; simpl.
  - destruct (step settings st) eqn:Hs; [discriminate |].
    intros H. inversion H; subst. now apply step_None in Hs.
  - destruct (step settings st) as [st1 |] eqn:Hs; [apply IH |].
    intros H. inversion H; subst. now apply step_None in Hs.
Qed.

(** *** Termination *)

Lemma step_decreases (settings : UserSettings) (st st' : State) :
  step settings st = Some st' ->
  (loopBound (queue st') < loopBound (queue st))%nat.
Proof.
  intros H. destruct (step_cases _ _ _ H) as
    [task rest i gap Hq _ _ -> | task rest i largest fit Hq _ _ _ _ H30 _ Hfit ->
     | task rest Hq _ ->]; rewrite Hq; simpl; lia.
Qed.

Lemma fitLoop_enough_fuel (settings : UserSettings) (fuel : nat) (st : State) :
  (loopBound (queue st) <= fuel)%nat ->
  exists st', fitLoop fuel settings st = Some st'.
Proof.
  revert st. induction fuel as [| fuel IH]; intros st Hle; simpl.
  - destruct (step settings st) as [st1 |] eqn:Hs; [| eauto].
    apply step_decreases in Hs. lia.
  - destruct (step settings st) as [st1 |] eqn:Hs; [| eauto].
    apply IH. apply step_decreases in Hs. lia.
Qed.

(** ** Where the floating blocks lie *)

Lemma within_same_gap (gs : list Gap) (k k' : nat) (g g' : Gap) (blk : ScheduleBlock) :
  GapsOrdered gs ->
  gs !! k = Some g -> gs !! k' = Some g' ->
  within g blk -> within g' blk -> startTime blk < endTime blk ->
  k = k'.
Proof.
  intros [_ Hord] Hk Hk' [H1 H2] [H3 H4] Hne.
  destruct (Nat.lt_trichotomy k k') as [Hlt | [Heq | Hgt]]; [| exact Heq |].
  - pose proof (Hord _ _ _ _ Hlt Hk Hk'). lia.
  - pose proof (Hord _ _ _ _ Hgt Hk' Hk). lia.
Qed.

Section Layout.
Variable settings : UserSettings.
Variable gaps0 : list Gap.
Variable fixedBlocks : list ScheduleBlock.
Hypothesis Hbuffer : 0 <= bufferMinutes settings.
Hypothesis Hordered : GapsOrdered gaps0.

Local Ltac arith := unfold within in *; simpl in *; lia.

(** Placing [d] minutes at the start of gap [i] keeps the invariant. *)
Lemma Layout_place (st : State) (i : nat) (g : Gap) (d : Z)
    (nb : ScheduleBlock) (q' : list Task) (ro : list Task) :
  Layout settings gaps0 fixedBlocks st ->
  gaps st !! i = Some g ->
  0 < d -> d <= duration g ->
  isLocked nb = false ->
  startTime nb = gstart g -> endTime nb = gstart g + d ->
  (forall t, t ∈ q' -> 0 < durationMinutes t) ->
  Layout settings gaps0 fixedBlocks
    {| queue := q';
       gaps := <[i := consume g (d + bufferMinutes settings)]> (gaps st);
       placed := placed st ++ [nb];
       rollover := ro |}.
Proof.
  intros [Hlen Hgaps Hblocks Horder Hqueue Hlocked] Hi Hd Hfit Hnl Hs He Hq'.
  assert (Hi0 : exists g0, gaps0 !! i = Some g0).
  { apply lookup_lt_is_Some. rewrite <- Hlen. now apply lookup_lt_Some in Hi. }
  destruct Hi0 as [g0 Hg0].
  destruct (Hgaps _ _ _ Hg0 Hi) as (Hend & Hsum & Hstart).
  assert (Hnew : forall k g0' g', gaps0 !! k = Some g0' ->
            <[i := consume g (d + bufferMinutes settings)]> (gaps st) !! k = Some g' ->
            exists g1, gaps st !! k = Some g1 /\ gend g' = gend g1 /\
                       gstart g' + duration g' = gstart g1 + duration g1 /\
                       gstart g1 <= gstart g' /\
                       (k = i -> g' = consume g (d + bufferMinutes settings))).
  { intros k g0' g' Hk0 Hk.
    apply list_lookup_insert_Some in Hk as [(-> & <- & _) | (Hne & Hk)].
    - exists g. simpl. repeat split; [exact Hi | arith | arith].
    - exists g'. repeat split; [exact Hk | lia | congruence]. }
  constructor; simpl.
  - now rewrite length_insert.
  - intros k g0' g' Hk0 Hk.
    destruct (Hnew _ _ _ Hk0 Hk) as (g1 & Hk1 & H1 & H2 & H3 & _).
    destruct (Hgaps _ _ _ Hk0 Hk1) as (H4 & H5 & H6). lia.
  - intros blk Hin Hblk.
    apply elem_of_app in Hin as [Hin | Hin].
    + destruct (Hblocks _ Hin Hblk) as (Hne & k & g0' & g1 & Hk0 & Hk1 & Hw & Hb).
      split; [exact Hne |].
      destruct (decide (k = i)) as [-> | Hki].
      * exists i, g0', (consume g (d + bufferMinutes settings)).
        rewrite list_lookup_insert_eq by (now apply lookup_lt_Some in Hi).
        assert (g1 = g) by congruence. subst g1.
        repeat split; try tauto; arith.
      * exists k, g0', g1. rewrite list_lookup_insert_ne by congruence. tauto.
    + apply list_elem_of_singleton in Hin. subst blk.
      split; [lia |].
      exists i, g0, (consume g (d + bufferMinutes settings)).
      rewrite list_lookup_insert_eq by (now apply lookup_lt_Some in Hi).
      repeat split; try tauto; arith.
  - intros x y bi bj Hxy Hx Hy Hbi Hbj g1 Hg1 Hwi Hwj.
    apply lookup_app_Some in Hy as [Hy | [Hlen' Hy]].
    + assert (Hx' : placed st !! x = Some bi).
      { apply lookup_lt_Some in Hy. now rewrite lookup_app_l in Hx by lia. }
      eauto.
    + apply list_lookup_singleton_Some in Hy as [Hy0 <-].
      assert (Hx' : placed st !! x = Some bi).
      { rewrite lookup_app_l in Hx by lia. exact Hx. }
      assert (Hin : bi ∈ placed st) by (apply list_elem_of_lookup; eauto).
      destruct (Hblocks _ Hin Hbi) as (Hne & k & g0' & g2 & Hk0 & Hk2 & Hw & Hb).
      apply list_elem_of_lookup in Hg1 as [k1 Hk1].
      assert (k = k1) by (eapply within_same_gap; eauto).
      assert (i = k1).
      { eapply within_same_gap; eauto; arith. }
      subst. assert (g2 = g) by congruence. subst g2. arith.
  - exact Hq'.
  - intros blk Hin Hblk.
    apply elem_of_app in Hin as [Hin | Hin]; [now apply Hlocked |].
    apply list_elem_of_singleton in Hin. subst blk. congruence.
Qed.

Lemma Layout_step (st st' : State) :
  Layout settings gaps0 fixedBlocks st -> step settings st = Some st' ->
  Layout settings gaps0 fixedBlocks st'.
Proof.
  intros HL Hstep.
  destruct (step_cases _ _ _ Hstep) as
    [task rest i gap Hq Hi Hfit -> |
     task rest i largest fit Hq Hi Hsmall _ Hsp H30 H15 Hfit -> |
     task rest Hq _ ->].
  - assert (Hpos : 0 < durationMinutes task).
    { apply (layout_queue _ _ _ _ HL). rewrite Hq. apply list_elem_of_here. }
    apply Layout_place; auto.
    intros t Ht. apply (layout_queue _ _ _ _ HL). rewrite Hq.
    now apply list_elem_of_further.
  - assert (Hlt : duration largest < durationMinutes task).
    { apply Hsmall. apply list_elem_of_lookup. eauto. }
    apply Layout_place; auto; simpl; try lia.
    intros t Ht. apply elem_of_cons in Ht as [-> | Ht]; [simpl; lia |].
    apply (layout_queue _ _ _ _ HL). rewrite Hq. now apply list_elem_of_further.
  - destruct HL as [Hlen Hgaps Hblocks Horder Hqueue Hlocked].
    constructor; simpl; auto.
    intros t Ht. apply Hqueue. rewrite Hq. now apply list_elem_of_further.
Qed.

Lemma Layout_initial (q : list Task) :
  (forall t, t ∈ q -> 0 < durationMinutes t) ->
  (forall blk, blk ∈ fixedBlocks -> isLocked blk = true) ->
  Layout settings gaps0 fixedBlocks
    {| queue := q; gaps := gaps0; placed := fixedBlocks; rollover := [] |}.
Proof.
  intros Hq Hfixed. destruct Hordered as [Hne Hord].
  constructor; simpl; auto.
  - intros k g0 g Hk0 Hk. assert (g = g0) by congruence. subst g.
    destruct (Hne _ _ Hk0). lia.
  - intros blk Hin Hblk. apply Hfixed in Hin. congruence.
  - intros i j bi bj _ Hi _ Hbi. exfalso.
    assert (bi ∈ fixedBlocks) by (apply list_elem_of_lookup; eauto).
    apply Hfixed in H. congruence.
Qed.

Lemma Layout_fitLoop (fuel : nat) (st st' : State) :
  Layout settings gaps0 fixedBlocks st -> fitLoop fuel settings st = Some st' ->
  Layout settings gaps0 fixedBlocks st'.
Proof. apply fitLoop_invariant. exact Layout_step. Qed.

(** What the invariant gives for the blocks of a state. *)
Lemma Layout_floating_within (st : State) (blk : ScheduleBlock) :
  Layout settings gaps0 fixedBlocks st -> blk ∈ placed st -> isLocked blk = false ->
  startTime blk < endTime blk /\ exists g0, g0 ∈ gaps0 /\ within g0 blk.
Proof.
  intros HL Hin Hblk.
  destruct (layout_blocks _ _ _ _ HL _ Hin Hblk)
    as (Hne & k & g0 & g & Hk0 & _ & Hw & _).
  split; [exact Hne |]. exists g0. split; [| exact Hw].
  apply list_elem_of_lookup. eauto.
Qed.

Lemma Layout_floating_disjoint (st : State) (i j : nat) (bi bj : ScheduleBlock) :
  Layout settings gaps0 fixedBlocks st -> (i < j)%nat ->
  placed st !! i = Some bi -> placed st !! j = Some bj ->
  isLocked bi = false -> isLocked bj = false ->
  endTime bi <= startTime bj \/ endTime bj <= startTime bi.
Proof.
  intros HL Hij Hi Hj Hbi Hbj.
  assert (Hini : bi ∈ placed st) by (apply list_elem_of_lookup; eauto).
  assert (Hinj : bj ∈ placed st) by (apply list_elem_of_lookup; eauto).
  destruct (layout_blocks _ _ _ _ HL _ Hini Hbi)
    as (Hnei & k & g0 & g & Hk0 & _ & Hw & _).
  destruct (layout_blocks _ _ _ _ HL _ Hinj Hbj)
    as (Hnej & k' & g0' & g' & Hk0' & _ & Hw' & _).
  destruct (Nat.lt_trichotomy k k') as [Hlt | [Heq | Hgt]].
  - left. destruct Hordered as [_ Hord].
    pose proof (Hord _ _ _ _ Hlt Hk0 Hk0'). unfold within in *. lia.
  - subst k'. assert (g0' = g0) by congruence. subst g0'.
    left. assert (Hg0 : g0 ∈ gaps0) by (apply list_elem_of_lookup; eauto).
    pose proof (layout_order _ _ _ _ HL _ _ _ _ Hij Hi Hj Hbi Hbj g0 Hg0 Hw Hw').
    lia.
  - right. destruct Hordered as [_ Hord].
    pose proof (Hord _ _ _ _ Hgt Hk0' Hk0). unfold within in *. lia.
Qed.
End Layout.

(** ** The occupied ranges and the gaps between them *)

Lemma StronglySorted_lookup {A : Type} (R : A -> A -> Prop) (l : list A)
    (i j : nat) (x y : A) :
  StronglySorted R l -> (i < j)%nat ->
  l !! i = Some x -> l !! j = Some y -> R x y.
Proof.
  intros Hs. revert i j. induction Hs as [| a l Hs IH Ha]; intros i j Hij Hi Hj.
  - discriminate Hi.
  - destruct j as [| j]; [lia |]. simpl in Hj.
    destruct i as [| i]; simpl in Hi.
    + inversion Hi; subst a. rewrite Forall_forall in Ha.
      apply Ha. apply list_elem_of_lookup. eauto.
    + apply (IH i j); [lia | assumption | assumption].
Qed.

Lemma mergeFrom_facts (rest : list Interval) (c : Interval) :
  StronglySorted byStart (c :: rest) ->
  Forall (byStart c) (mergeFrom c rest) /\
  StronglySorted byStart (mergeFrom c rest) /\
  (forall o, covers c o \/ o ∈ rest -> exists m, m ∈ mergeFrom c rest /\ covers m o).
Proof.
  revert c. induction rest as [| o rest IH]; intros c Hs; simpl.
  - split; [| split].
    + constructor; [unfold byStart; lia | constructor].
    + repeat constructor.
    + intros o [Hc | Hin]; [| now apply elem_of_nil in Hin].
      exists c. split; [apply list_elem_of_here | exact Hc].
  - apply StronglySorted_inv in Hs as [Hs Hc].
    apply Forall_cons in Hc as [Hco Hcr].
    pose proof Hs as Hs'. apply StronglySorted_inv in Hs' as [Hsr Hor].
    destruct (Z.ltb_spec (istart o) (iend c)) as [Hlt | Hge].
    + set (c' := {| istart := istart c; iend := Z.max (iend c) (iend o) |}).
      destruct (IH c') as (H1 & H2 & H3).
      { constructor; [exact Hsr | exact Hcr]. }
      split; [exact H1 | split; [exact H2 |]].
      intros o' Ho'. apply H3.
      destruct Ho' as [[Ha Hb] | Hin].
      * left. unfold covers. simpl. lia.
      * apply elem_of_cons in Hin as [-> | Hin]; [| now right].
        left. unfold covers, byStart in *. simpl. lia.
    + destruct (IH o Hs) as (H1 & H2 & H3).
      split; [| split].
      * constructor; [unfold byStart; lia |].
        eapply Forall_impl; [exact H1 |]. unfold byStart in *. intros; lia.
      * constructor; [exact H2 |].
        eapply Forall_impl; [exact H1 |]. unfold byStart in *. intros; lia.
      * intros o' [Hc' | Hin].
        -- exists c. split; [apply list_elem_of_here | exact Hc'].
        -- destruct (H3 o') as (m & Hm & Hcov).
           { apply elem_of_cons in Hin as [-> | Hin]; [| now right].
             left. unfold covers. lia. }
           exists m. split; [now apply list_elem_of_further | exact Hcov].
Qed.

(** A property of ranges that a merge keeps is a property of the merged
    list. *)
Lemma mergeFrom_Forall (P : Interval -> Prop) :
  (forall c o, P c -> P o -> istart c <= istart o -> istart o < iend c ->
     P {| istart := istart c; iend := Z.max (iend c) (iend o) |}) ->
  forall rest c,
    StronglySorted byStart (c :: rest) ->
    Forall P (c :: rest) -> Forall P (mergeFrom c rest).
Proof.
  intros HP. induction rest as [| o rest IH]; intros c Hs Hall; simpl.
  - exact Hall.
  - apply StronglySorted_inv in Hs as [Hs Hc].
    apply Forall_cons in Hc as [Hco Hcr].
    apply Forall_cons in Hall as [Pc Hall].
    pose proof Hall as Hall'. apply Forall_cons in Hall' as [Po Prest].
    destruct (Z.ltb_spec (istart o) (iend c)) as [Hlt | Hge].
    + apply IH.
      * apply StronglySorted_inv in Hs as [Hsr _]. constructor; [exact Hsr | exact Hcr].
      * constructor; [| exact Prest]. now apply HP.
    + constructor; [exact Pc |]. now apply IH.
Qed.

Lemma mergeOccupied_facts (occupied : list Interval) :
  StronglySorted byStart occupied ->
  StronglySorted byStart (mergeOccupied occupied) /\
  (forall o, o ∈ occupied -> exists m, m ∈ mergeOccupied occupied /\ covers m o).
Proof.
  destruct occupied as [| c rest]; intros Hs; simpl.
  - split; [constructor |]. intros o Ho. now apply elem_of_nil in Ho.
  - destruct (mergeFrom_facts rest c Hs) as (_ & H2 & H3).
    split; [exact H2 |]. intros o Ho. apply H3.
    apply elem_of_cons in Ho as [-> | Ho]; [| now right].
    left. unfold covers. lia.
Qed.

Lemma mergeOccupied_Forall (P : Interval -> Prop) (occupied : list Interval) :
  (forall c o, P c -> P o -> istart c <= istart o -> istart o < iend c ->
     P {| istart := istart c; iend := Z.max (iend c) (iend o) |}) ->
  StronglySorted byStart occupied ->
  Forall P occupied -> Forall P (mergeOccupied occupied).
Proof.
  intros HP. destruct occupied as [| c rest]; simpl; [constructor |].
  now apply mergeFrom_Forall.
Qed.

Lemma okInterval_merge (c o : Interval) :
  okInterval c -> okInterval o -> istart c <= istart o -> istart o < iend c ->
  okInterval {| istart := istart c; iend := Z.max (iend c) (iend o) |}.
Proof. unfold okInterval. simpl. lia. Qed.

Lemma findGaps_none (dayEnd : Z) (occupied : list Interval) (cursor : Z) :
  1440 <= cursor -> dayEnd <= 1440 ->
  Forall okInterval occupied ->
  findGaps cursor dayEnd occupied = [].
Proof.
  intros Hc Hd. induction 1 as [| o rest [Ho _] _ IH]; simpl.
  - destruct (Z.ltb_spec cursor dayEnd); [lia | reflexivity].
  - destruct (Z.leb_spec (iend o) cursor); [exact IH | lia].
Qed.

Lemma findGaps_shape (dayEnd : Z) (occupied : list Interval) (cursor : Z) :
  360 <= cursor -> dayEnd <= 1440 ->
  Forall okInterval occupied ->
  Forall (gapOk cursor) (findGaps cursor dayEnd occupied) /\
  StronglySorted gapBefore (findGaps cursor dayEnd occupied).
Proof.
  intros Hc Hd Hok. revert cursor Hc.
  induction Hok as [| o rest Ho Hrest IH]; intros cursor Hc; simpl.
  - destruct (Z.ltb_spec cursor dayEnd).
    + split; [| repeat constructor].
      constructor; [| constructor]. unfold gapOk. simpl. lia.
    + split; constructor.
  - destruct (Z.leb_spec (iend o) cursor) as [Hskip | Hlive]; [now apply IH |].
    destruct Ho as [Hend Ho].
    destruct (IH (Z.max cursor (iend o)) ltac:(lia)) as [Hgaps Hsorted].
    assert (Hgaps' : Forall (gapOk cursor) (findGaps (Z.max cursor (iend o)) dayEnd rest)).
    { eapply Forall_impl; [exact Hgaps |]. unfold gapOk. intros; lia. }
    destruct (Z.ltb_spec cursor (istart o)) as [Hgap | Hnogap]; simpl;
      [| split; assumption].
    split.
    + constructor; [| exact Hgaps']. unfold gapOk. simpl. lia.
    + constructor; [exact Hsorted |].
      destruct (Z.eq_dec (iend o) 1440) as [H1440 | Hn1440].
      * rewrite findGaps_none; [constructor | lia | lia | exact Hrest].
      * eapply Forall_impl; [exact Hgaps |].
        unfold gapOk, gapBefore. simpl. intros; lia.
Qed.

Lemma findGaps_end (bound dayEnd : Z) (occupied : list Interval) (cursor : Z) :
  dayEnd <= bound ->
  Forall (fun o => istart o <= bound) occupied ->
  Forall (fun g => gend g <= bound) (findGaps cursor dayEnd occupied).
Proof.
  intros Hd Hall. revert cursor.
  induction Hall as [| o rest Ho _ IH]; intros cursor; simpl.
  - destruct (cursor <? dayEnd); repeat constructor. simpl. lia.
  - destruct (iend o <=? cursor); [apply IH |].
    destruct (cursor <? istart o); simpl; [| apply IH].
    constructor; [simpl; lia | apply IH].
Qed.

(** No gap meets a range covered by the list that is scanned, or one that
    ends before the scan starts. *)
Lemma findGaps_apart (dayEnd : Z) (o : Interval) (occupied : list Interval) (cursor : Z) :
  StronglySorted byStart occupied ->
  iend o <= cursor \/ (exists m, m ∈ occupied /\ covers m o) ->
  forall g, g ∈ findGaps cursor dayEnd occupied ->
    gend g <= istart o \/ iend o <= gstart g.
Proof.
  intros Hs. revert cursor.
  induction Hs as [| m rest Hs IH Hm]; intros cursor Hcov g Hg; simpl in Hg.
  - destruct Hcov as [Hcov | (m & Hm & _)]; [| now apply elem_of_nil in Hm].
    destruct (cursor <? dayEnd); [| now apply elem_of_nil in Hg].
    apply list_elem_of_singleton in Hg. subst g. simpl. lia.
  - destruct (Z.leb_spec (iend m) cursor) as [Hskip | Hlive].
    + apply (IH cursor); [| exact Hg].
      destruct Hcov as [Hcov | (m' & Hm' & Hc')]; [now left |].
      apply elem_of_cons in Hm' as [-> | Hm']; [| right; eauto].
      left. unfold covers in Hc'. lia.
    + apply elem_of_app in Hg as [Hg | Hg].
      * destruct (cursor <? istart m); [| now apply elem_of_nil in Hg].
        apply list_elem_of_singleton in Hg. subst g. simpl.
        destruct Hcov as [Hcov | (m' & Hm' & Hc')]; [lia |].
        left. apply elem_of_cons in Hm' as [-> | Hm']; [unfold covers in Hc'; lia |].
        rewrite Forall_forall in Hm. specialize (Hm _ Hm').
        unfold covers, byStart in *. lia.
      * apply (IH (Z.max cursor (iend m))); [| exact Hg].
        destruct Hcov as [Hcov | (m' & Hm' & Hc')]; [left; lia |].
        apply elem_of_cons in Hm' as [-> | Hm']; [| right; eauto].
        left. unfold covers in Hc'. lia.
Qed.

(** ** The fixed pass *)

Lemma mapFixed_facts (settings : UserSettings) (fixed : list Task)
    (bs : list ScheduleBlock) (occ : list Interval) :
  mapFixed settings fixed = Some (bs, occ) ->
  (forall blk, blk ∈ bs ->
     exists t start, t ∈ fixed /\ blk = lockedBlock t start /\
                     occupiedBy settings t start ∈ occ) /\
  (forall o, o ∈ occ ->
     exists t start, t ∈ fixed /\ o = occupiedBy settings t start /\
                     lockedBlock t start ∈ bs) /\
  (forall t time, t ∈ fixed -> startOf t = Some time ->
     exists start, minutesOf time = Some start /\ lockedBlock t start ∈ bs).
Proof.
  revert bs occ. induction fixed as [| t fixed IH]; intros bs occ; simpl.
  - intros H. inversion H; subst. repeat split.
    + intros blk Hb. now apply elem_of_nil in Hb.
    + intros o Ho. now apply elem_of_nil in Ho.
    + intros t time Ht. now apply elem_of_nil in Ht.
  - destruct (startOf t) as [time |] eqn:Hstart.
    + destruct (minutesOf time) as [start |] eqn:Hmin; [| discriminate].
      destruct (mapFixed settings fixed) as [[bs' occ'] |]; [| discriminate].
      intros H. inversion H; subst bs occ. clear H.
      destruct (IH bs' occ' eq_refl) as (H1 & H2 & H3).
      repeat split.
      * intros blk Hb. apply elem_of_cons in Hb as [-> | Hb].
        -- exists t, start. repeat split; apply list_elem_of_here.
        -- destruct (H1 _ Hb) as (t' & s' & Ht' & Hblk & Hocc).
           exists t', s'. repeat split; auto; now apply list_elem_of_further.
      * intros o Ho. apply elem_of_cons in Ho as [-> | Ho].
        -- exists t, start. repeat split; apply list_elem_of_here.
        -- destruct (H2 _ Ho) as (t' & s' & Ht' & Ho' & Hb').
           exists t', s'. repeat split; auto; now apply list_elem_of_further.
      * intros t' time' Ht' Hs'. apply elem_of_cons in Ht' as [-> | Ht'].
        -- assert (time' = time) by congruence. subst time'.
           exists start. split; [exact Hmin | apply list_elem_of_here].
        -- destruct (H3 _ _ Ht' Hs') as (s' & Hm' & Hin).
           exists s'. split; [exact Hm' | now apply list_elem_of_further].
    + intros H. destruct (IH bs occ H) as (H1 & H2 & H3).
      repeat split.
      * intros blk Hb. destruct (H1 _ Hb) as (t' & s' & Ht' & Hrest).
        exists t', s'. split; [now apply list_elem_of_further | exact Hrest].
      * intros o Ho. destruct (H2 _ Ho) as (t' & s' & Ht' & Hrest).
        exists t', s'. split; [now apply list_elem_of_further | exact Hrest].
      * intros t' time' Ht' Hs'. apply elem_of_cons in Ht' as [-> | Ht'];
          [congruence | eauto].
Qed.

(** Every locked block of the fixed pass comes from a task with a start
    time. *)
Lemma mapFixed_origin (settings : UserSettings) (fixed : list Task)
    (bs : list ScheduleBlock) (occ : list Interval) (blk : ScheduleBlock) :
  mapFixed settings fixed = Some (bs, occ) -> blk ∈ bs ->
  exists t time start,
    t ∈ fixed /\ startOf t = Some time /\ minutesOf time = Some start /\
    blk = lockedBlock t start.
Proof.
  revert bs occ. induction fixed as [| t fixed IH]; intros bs occ; simpl.
  - intros H Hblk. inversion H; subst. now apply elem_of_nil in Hblk.
  - destruct (startOf t) as [time |] eqn:Hstart.
    + destruct (minutesOf time) as [start |] eqn:Hmin; [| discriminate].
      destruct (mapFixed settings fixed) as [[bs' occ'] |]; [| discriminate].
      intros H Hblk. inversion H; subst bs occ. clear H.
      apply elem_of_cons in Hblk as [-> | Hblk].
      * exists t, time, start. repeat split; auto. apply list_elem_of_here.
      * destruct (IH bs' occ' eq_refl Hblk) as (t' & time' & s' & Ht' & Hrest).
        exists t', time', s'. split; [now apply list_elem_of_further | exact Hrest].
    + intros H Hblk.
      destruct (IH bs occ H Hblk) as (t' & time' & s' & Ht' & Hrest).
      exists t', time', s'. split; [now apply list_elem_of_further | exact Hrest].
Qed.

Lemma fixedTasks_elem_of (tasks : list Task) (t : Task) :
  t ∈ fixedTasks tasks <-> isFixed t = true /\ t ∈ tasks.
Proof.
  unfold fixedTasks. rewrite list_elem_of_filter.
  destruct (isFixed t); simpl; intuition (try discriminate; exact I).
Qed.

Lemma okInterval_occupiedBy (settings : UserSettings) (t : Task) (start : Z) :
  0 <= bufferMinutes settings -> 0 < durationMinutes t ->
  okInterval (occupiedBy settings t start).
Proof. unfold okInterval, occupiedBy. simpl. lia. Qed.

Lemma initialGaps_eq (tasks : list Task) (settings : UserSettings) :
  initialGaps tasks settings
  = match mapFixed settings (fixedTasks tasks) with
    | Some (_, occupied) =>
        Some (findGaps 360 1380 (mergeOccupied (sortOccupied occupied)))
    | None => None
    end.
Proof.
  unfold initialGaps.
  change (minutesOf "06:00") with (Some 360).
  change (minutesOf "23:00") with (Some 1380).
  now destruct (mapFixed settings (fixedTasks tasks)) as [[bs occ] |].
Qed.

Section Assembly.
Variable tasks : list Task.
Variable settings : UserSettings.
Hypothesis Hbuffer : 0 <= bufferMinutes settings.
Hypothesis Hpositive : forall t, t ∈ tasks -> 0 < durationMinutes t.

Variable fixedBlocks : list ScheduleBlock.
Variable occupied : list Interval.
Variable gaps0 : list Gap.
Hypothesis Hfixed : mapFixed settings (fixedTasks tasks) = Some (fixedBlocks, occupied).
Hypothesis Hgaps0 : initialGaps tasks settings = Some gaps0.

Lemma gaps0_eq : gaps0 = findGaps 360 1380 (mergeOccupied (sortOccupied occupied)).
Proof.
  rewrite initialGaps_eq, Hfixed in Hgaps0. now inversion Hgaps0.
Qed.

Lemma occupied_ok : Forall okInterval occupied.
Proof.
  apply Forall_forall. intros o Ho.
  destruct (mapFixed_facts _ _ _ _ Hfixed) as (_ & H2 & _).
  destruct (H2 _ Ho) as (t & start & Ht & -> & _).
  apply fixedTasks_elem_of in Ht as [_ Ht].
  apply okInterval_occupiedBy; auto.
Qed.

Lemma merged_ok : Forall okInterval (mergeOccupied (sortOccupied occupied)).
Proof.
  apply mergeOccupied_Forall.
  - exact okInterval_merge.
  - apply sortOccupied_sorted.
  - rewrite sortOccupied_perm. exact occupied_ok.
Qed.

Lemma gaps0_shape : Forall (gapOk 360) gaps0 /\ GapsOrdered gaps0.
Proof.
  rewrite gaps0_eq.
  destruct (findGaps_shape 1380 _ 360 ltac:(lia) ltac:(lia) merged_ok) as [Hok Hs].
  split; [exact Hok |]. split.
  - intros k g Hk. rewrite Forall_forall in Hok.
    assert (Hin : g ∈ findGaps 360 1380 (mergeOccupied (sortOccupied occupied)))
      by (apply list_elem_of_lookup; eauto).
    destruct (Hok _ Hin) as (_ & H1 & H2 & _). tauto.
  - intros i j gi gj Hij Hi Hj.
    exact (StronglySorted_lookup _ _ _ _ _ _ Hs Hij Hi Hj).
Qed.

(** A gap meets no locked block. *)
Lemma gaps0_apart_locked (g : Gap) (blk : ScheduleBlock) :
  g ∈ gaps0 -> blk ∈ fixedBlocks ->
  gend g <= startTime blk \/ endTime blk <= gstart g.
Proof.
  intros Hg Hblk.
  destruct (mapFixed_facts _ _ _ _ Hfixed) as (H1 & _ & _).
  destruct (H1 _ Hblk) as (t & start & Ht & -> & Hocc).
  destruct gaps0_shape as [Hok _]. rewrite Forall_forall in Hok.
  destruct (Hok _ Hg) as (H360 & Hne & _ & H1440).
  rewrite gaps0_eq in Hg.
  destruct (mergeOccupied_facts (sortOccupied occupied) (sortOccupied_sorted _))
    as [Hsorted Hcover].
  assert (Hin : occupiedBy settings t start ∈ sortOccupied occupied)
    by (now rewrite sortOccupied_perm).
  pose proof (findGaps_apart 1380 _ _ 360 Hsorted (or_intror (Hcover _ Hin)) g Hg) as Hap.
  unfold occupiedBy in Hap. simpl in *. lia.
Qed.

Lemma fixedBlocks_locked (blk : ScheduleBlock) :
  blk ∈ fixedBlocks -> isLocked blk = true.
Proof.
  intros Hblk. destruct (mapFixed_facts _ _ _ _ Hfixed) as (H1 & _ & _).
  now destruct (H1 _ Hblk) as (t & start & _ & -> & _).
Qed.

Lemma floatingTasks_elem_of (t : Task) :
  t ∈ floatingTasks tasks <-> isPending t = true /\ t ∈ tasks.
Proof.
  rewrite floatingTasks_perm, list_elem_of_filter.
  destruct (isPending t); simpl; intuition (try discriminate; exact I).
Qed.

(** The invariant holds when the loop ends. *)
Lemma final_Layout (fuel : nat) (st' : State) :
  fitLoop fuel settings
    {| queue := floatingTasks tasks; gaps := gaps0;
       placed := fixedBlocks; rollover := [] |} = Some st' ->
  Layout settings gaps0 fixedBlocks st'.
Proof.
  apply Layout_fitLoop; [exact Hbuffer | apply gaps0_shape |].
  apply Layout_initial; [apply gaps0_shape | | exact fixedBlocks_locked].
  intros t Ht. apply floatingTasks_elem_of in Ht as [_ Ht]. auto.
Qed.
End Assembly.

Lemma rescheduleDay_Some (tasks : list Task) (settings : UserSettings) (r : Result) :
  rescheduleDay tasks settings = Some r ->
  exists fixedBlocks occupied gaps0 st',
    mapFixed settings (fixedTasks tasks) = Some (fixedBlocks, occupied) /\
    initialGaps tasks settings = Some gaps0 /\
    fitLoop (loopBound (floatingTasks tasks)) settings
      {| queue := floatingTasks tasks; gaps := gaps0;
         placed := fixedBlocks; rollover := [] |} = Some st' /\
    blocks r = placed st' /\ rolloverTasks r = rollover st'.
Proof.
  unfold rescheduleDay.
  destruct (mapFixed settings (fixedTasks tasks)) as [[fixedBlocks occupied] |];
    [| discriminate].
  destruct (initialGaps tasks settings) as [gaps0 |]; [| discriminate].
  simpl. destruct (fitLoop _ settings _) as [st' |] eqn:Hloop; [| discriminate].
  intros H. inversion H; subst r. simpl.
  exists fixedBlocks, occupied, gaps0, st'. auto.
Qed.

(** ** Accounting: what becomes of each floating task *)

Lemma sumOf_app {A : Type} (f : A -> Z) (l1 l2 : list A) :
  sumOf f (l1 ++ l2) = sumOf f l1 + sumOf f l2.
Proof. induction l1 as [| x l1 IH]; simpl; [reflexivity | rewrite IH; lia]. Qed.

Lemma sumOf_perm {A : Type} (f : A -> Z) (l1 l2 : list A) :
  l1 ≡ₚ l2 -> sumOf f l1 = sumOf f l2.
Proof. induction 1; simpl; lia. Qed.

Lemma sumOf_zero {A : Type} (f : A -> Z) (l : list A) :
  (forall x, x ∈ l -> f x = 0) -> sumOf f l = 0.
Proof.
  induction l as [| x l IH]; intros H; simpl; [reflexivity |].
  rewrite (H x) by apply list_elem_of_here.
  rewrite IH; [reflexivity |]. intros y Hy. apply H. now apply list_elem_of_further.
Qed.

Lemma sumOf_nonneg {A : Type} (f : A -> Z) (l : list A) :
  (forall y, 0 <= f y) -> 0 <= sumOf f l.
Proof.
  intros Hf. induction l as [| y l IH]; simpl; [lia |]. specialize (Hf y). lia.
Qed.

Lemma sumOf_elem_le {A : Type} (f : A -> Z) (l : list A) (x : A) :
  (forall y, 0 <= f y) -> x ∈ l -> f x <= sumOf f l.
Proof.
  intros Hf. induction l as [| y l IH]; intros Hx; [now apply elem_of_nil in Hx |].
  simpl. apply elem_of_cons in Hx as [-> | Hx].
  - pose proof (sumOf_nonneg f l Hf). lia.
  - specialize (IH Hx). specialize (Hf y). lia.
Qed.

Lemma sumOf_positive {A : Type} (f : A -> Z) (l : list A) :
  0 < sumOf f l -> exists x, x ∈ l /\ 0 < f x.
Proof.
  induction l as [| y l IH]; simpl; [lia |]. intros H.
  destruct (Z.lt_ge_cases 0 (f y)) as [Hy | Hy].
  - exists y. split; [apply list_elem_of_here | exact Hy].
  - destruct IH as (x & Hx & Hfx); [lia |].
    exists x. split; [now apply list_elem_of_further | exact Hfx].
Qed.

Section Accounting.
Variable settings : UserSettings.
Variable fb : ScheduleBlock -> Z.
Variable ft : Task -> Z.
Hypothesis Hwhole : forall task s, fb (floatingBlock task s) = ft task.
Hypothesis Hsplit : forall task s fit,
  fb (partABlock task s fit) + ft (partB task (durationMinutes task - fit)) = ft task.

Lemma account_step (st st' : State) :
  step settings st = Some st' -> account fb ft st' = account fb ft st.
Proof.
  intros H. unfold account.
  destruct (step_cases _ _ _ H) as
    [task rest i gap Hq _ _ -> | task rest i largest fit Hq _ _ _ _ _ _ _ ->
     | task rest Hq _ ->]; rewrite Hq; simpl; rewrite sumOf_app; simpl.
  - rewrite Hwhole. lia.
  - pose proof (Hsplit task (gstart largest) fit). lia.
  - lia.
Qed.

Lemma account_fitLoop (fuel : nat) (st st' : State) :
  fitLoop fuel settings st = Some st' -> account fb ft st' = account fb ft st.
Proof.
  apply (fitLoop_invariant settings (fun s => account fb ft s = account fb ft st)); [| reflexivity].
  intros s s' Hs Hstep. now rewrite (account_step _ _ Hstep).
Qed.
End Accounting.

(** ** More invariants of the loop *)

Lemma step_placed_grows (settings : UserSettings) (st st' : State) :
  step settings st = Some st' -> exists l, placed st' = (placed st ++ l)%list.
Proof.
  intros H. destruct (step_cases _ _ _ H) as
    [task rest i gap _ _ _ -> | task rest i largest fit _ _ _ _ _ _ _ _ ->
     | task rest _ _ ->]; simpl; eauto.
  exists []. now rewrite app_nil_r.
Qed.

Lemma fitLoop_placed_grows (settings : UserSettings) (fuel : nat) (st st' : State) :
  fitLoop fuel settings st = Some st' -> exists l, placed st' = (placed st ++ l)%list.
Proof.
  apply (fitLoop_invariant settings (fun s => exists l, placed s = (placed st ++ l)%list)).
  - intros s s' [l Hl] Hstep. destruct (step_placed_grows _ _ _ Hstep) as [l' Hl'].
    exists (l ++ l')%list. now rewrite Hl', Hl, app_assoc.
  - exists []. now rewrite app_nil_r.
Qed.

Lemma allFloating_step (settings : UserSettings) (st st' : State) :
  allFloating st -> step settings st = Some st' -> allFloating st'.
Proof.
  unfold allFloating. intros Hall H.
  destruct (step_cases _ _ _ H) as
    [task rest i gap Hq _ _ -> | task rest i largest fit Hq _ _ _ _ _ _ _ ->
     | task rest Hq _ ->]; simpl; rewrite Hq in Hall; intros t Ht.
  - apply Hall. now apply list_elem_of_further.
  - apply elem_of_cons in Ht as [-> | Ht].
    + simpl. apply Hall. apply list_elem_of_here.
    + apply Hall. now apply list_elem_of_further.
  - apply Hall. rewrite app_assoc in Ht.
    apply elem_of_app in Ht as [Ht | Ht].
    + now apply list_elem_of_further.
    + apply list_elem_of_singleton in Ht. subst t. apply list_elem_of_here.
Qed.

Lemma partsLong_step (settings : UserSettings) (st st' : State) :
  partsLong st -> step settings st = Some st' -> partsLong st'.
Proof.
  unfold partsLong. intros Hall H.
  destruct (step_cases _ _ _ H) as
    [task rest i gap Hq _ _ -> | task rest i largest fit Hq _ _ _ _ _ _ Hfit ->
     | task rest Hq _ ->]; simpl; [| | exact Hall];
    intros blk Hblk Hpart; apply elem_of_app in Hblk as [Hblk | Hblk]; auto;
    apply list_elem_of_singleton in Hblk; subst blk.
  - discriminate Hpart.
  - simpl. lia.
Qed.

(** The loop adds no locked block. *)
Lemma fitLoop_locked (settings : UserSettings) (fuel : nat) (st st' : State)
    (blk : ScheduleBlock) :
  fitLoop fuel settings st = Some st' ->
  blk ∈ placed st' -> isLocked blk = true -> blk ∈ placed st.
Proof.
  intros Hloop. revert blk.
  apply (fitLoop_invariant settings
           (fun s => forall blk, blk ∈ placed s -> isLocked blk = true -> blk ∈ placed st))
    with (fuel := fuel) (st := st); [| auto | exact Hloop].
  intros s s' Hs Hstep blk Hblk Hl.
  destruct (step_cases _ _ _ Hstep) as
    [task rest i gap _ _ _ -> | task rest i largest fit _ _ _ _ _ _ _ _ ->
     | task rest _ _ ->]; simpl in Hblk; auto;
    apply elem_of_app in Hblk as [Hblk | Hblk]; auto;
    apply list_elem_of_singleton in Hblk; subst blk; discriminate Hl.
Qed.

(** The state the loop ends in does not depend on the fuel that is left. *)
Lemma fitLoop_fuel_irrelevant (settings : UserSettings) (f1 f2 : nat)
    (st s1 s2 : State) :
  fitLoop f1 settings st = Some s1 -> fitLoop f2 settings st = Some s2 -> s1 = s2.
Proof.
  revert f2 st. induction f1 as [| f1 IH]; intros f2 st; simpl.
  - destruct (step settings st) as [st1 |] eqn:Hs; [discriminate |].
    destruct f2; simpl; rewrite Hs; congruence.
  - destruct (step settings st) as [st1 |] eqn:Hs.
    + destruct f2; simpl; rewrite Hs; [discriminate |]. apply IH.
    + destruct f2; simpl; rewrite Hs; congruence.
Qed.

(** * The claims *)

(** ** C8: [timeToMinutes] on malformed and on well-formed input *)

(** C8, counterexample.  The claim has [timeToMinutes] fail with a
    FormatError, and return no number, on every malformed string.  On "abc"
    it returns NaN and on ":" it returns 0; neither string is "HH:MM". *)
Lemma timeToMinutes_malformed_returns :
  ~ wellFormedTime "abc" /\ timeToMinutes "abc" = Normal NaN /\
  ~ wellFormedTime ":" /\ timeToMinutes ":" = Normal (Int 0).
Proof.
  repeat split; try reflexivity;
    intros (h1 & h2 & m1 & m2 & Heq & _); discriminate Heq.
Qed.

(** C8, amended.  [timeToMinutes] never fails: for every string it returns a
    number.  For "HH:MM" made of digits that number is hours * 60 + minutes,
    and for a string without a colon it is NaN. *)
Theorem timeToMinutes_always_returns (time : string) (h1 h2 m1 m2 : ascii) :
  isDigit h1 = true -> isDigit h2 = true ->
  isDigit m1 = true -> isDigit m2 = true ->
  (exists v, timeToMinutes time = Normal v) /\
  timeToMinutes (clockString h1 h2 m1 m2)
  = Normal (Int ((10 * digitValue h1 + digitValue h2) * 60
                 + (10 * digitValue m1 + digitValue m2))) /\
  (length (split ":" time) = 1%nat -> timeToMinutes time = Normal NaN).
Proof.
  intros H1 H2 H3 H4. split; [| split].
  - unfold timeToMinutes. eauto.
  - now apply timeToMinutes_clockString.
  - apply timeToMinutes_no_colon.
Qed.

Lemma timeToMinutes_always_returns_witness :
  (exists v, timeToMinutes "9h05" = Normal v) /\
  timeToMinutes "09:05" = Normal (Int 545) /\
  (length (split ":" "9h05") = 1%nat -> timeToMinutes "9h05" = Normal NaN).
Proof.
  exact (timeToMinutes_always_returns "9h05" "0" "9" "0" "5"
           eq_refl eq_refl eq_refl eq_refl).
Defined.

(** ** C10: the round trip of the time codec *)

(** C10.  For the canonical string "HH:MM" of an hour up to 23 and a minute
    up to 59, [minutesToTime] of [timeToMinutes] gives the string back; for
    an integer [n] from 0 up to 1439, [timeToMinutes] of [minutesToTime]
    gives [n] back. *)
Theorem codec_round_trip (h m n : Z) :
  0 <= h <= 23 -> 0 <= m <= 59 -> 0 <= n < 1440 ->
  (exists v, timeToMinutes (canonicalTime h m) = Normal v /\
             minutesToTime v = Some (canonicalTime h m)) /\
  (exists s, minutesToTime (Int n) = Some s /\
             timeToMinutes s = Normal (Int n)).
Proof.
  intros Hh Hm Hn. split.
  - destruct (roundTrips_spec (h * 60 + m)) as [Hto Hfrom].
    { apply roundTrips_day. lia. }
    assert (Hdiv : (h * 60 + m) / 60 = h)
      by (symmetry; apply Z.div_unique with m; lia).
    assert (Hmod : (h * 60 + m) mod 60 = m)
      by (symmetry; apply Z.mod_unique with h; lia).
    rewrite Hdiv, Hmod in *.
    exists (Int (h * 60 + m)). split; assumption.
  - destruct (roundTrips_spec n (roundTrips_day n Hn)) as [Hto Hfrom].
    eauto.
Qed.

Lemma codec_round_trip_witness :
  (exists v, timeToMinutes "09:05" = Normal v /\ minutesToTime v = Some "09:05") /\
  (exists s, minutesToTime (Int 1439) = Some s /\ timeToMinutes s = Normal (Int 1439)).
Proof.
  apply (codec_round_trip 9 5 1439); lia.
Defined.

(** ** C9: the fitting loop terminates *)

(** C9.  An iteration either shortens the queue, or keeps its length and
    puts at its front a Part 2 remainder strictly shorter than the task it
    comes from; and the loop ends, with an empty queue, within
    [loopBound] iterations from any state. *)
Theorem fitLoop_terminates (settings : UserSettings) (st : State) :
  (forall st', step settings st = Some st' ->
     (length (queue st') < length (queue st))%nat \/
     exists task rest d,
       queue st = task :: rest /\ queue st' = partB task d :: rest /\
       durationMinutes (partB task d) < durationMinutes task) /\
  (forall fuel, (loopBound (queue st) <= fuel)%nat ->
     exists final, fitLoop fuel settings st = Some final /\ queue final = []).
Proof.
  split.
  - intros st' H. destruct (step_cases _ _ _ H) as
      [task rest i gap Hq _ _ -> | task rest i largest fit Hq _ _ _ _ _ _ Hfit ->
       | task rest Hq _ ->]; rewrite Hq; simpl.
    + left. lia.
    + right. exists task, rest, (durationMinutes task - fit). repeat split. lia.
    + left. lia.
  - intros fuel Hfuel.
    destruct (fitLoop_enough_fuel settings fuel st Hfuel) as [final Hfinal].
    exists final. split; [exact Hfinal |]. now apply fitLoop_queue_empty in Hfinal.
Qed.

(** The engine returns whenever the fixed start times are integers. *)
Lemma rescheduleDay_defined (tasks : list Task) (settings : UserSettings) :
  is_Some (mapFixed settings (fixedTasks tasks)) ->
  is_Some (rescheduleDay tasks settings).
Proof.
  intros [[bs occ] Hfixed]. unfold rescheduleDay.
  rewrite initialGaps_eq, Hfixed. simpl.
  destruct (fitLoop_enough_fuel settings (loopBound (floatingTasks tasks))
              {| queue := floatingTasks tasks;
                 gaps := findGaps 360 1380 (mergeOccupied (sortOccupied occ));
                 placed := bs; rollover := [] |} (Nat.le_refl _)) as [st' ->].
  eauto.
Qed.

(** ** C4: the split when the largest gap minus the buffer is 14 *)

(** C4, the code at the failing input.  With a buffer of 10 the only gap is
    06:00-06:24: 24 minutes, 14 once the buffer is taken off.  The split is
    not rejected: a Part 1 block of 15 minutes is emitted at 06:00 and what
    rolls over is the 25-minute remainder, not the task. *)
Theorem split_accepted_at_14 :
  initialGaps gap24Tasks (withBuffer 10)
  = Some [{| gstart := 360; gend := 384; duration := 24 |}] /\
  exists r anchor part1 rest,
    rescheduleDay gap24Tasks (withBuffer 10) = Some r /\
    blocks r = [anchor; part1] /\
    blockId part1 = PartABlock "A" /\
    startTime part1 = 360 /\ endTime part1 = 375 /\
    rolloverTasks r = [rest] /\
    id rest = "A" /\ durationMinutes rest = 25.
Proof.
  split; [reflexivity |].
  do 4 eexists. split; [vm_compute; reflexivity |].
  repeat split.
Qed.

(** The test [actualFit < 15] of the split can never hold. *)
Lemma actualFit_never_below_15 (fitDuration buffer : Z) :
  (Z.max 15 (fitDuration - buffer) <? 15) = false.
Proof. apply Z.ltb_ge. lia. Qed.

(** ** The result of [rescheduleDay] *)

(** The state the loop ends in, with all that is known about it. *)
Lemma rescheduleDay_layout (tasks : list Task) (settings : UserSettings) (r : Result) :
  0 <= bufferMinutes settings -> positiveDurations tasks ->
  rescheduleDay tasks settings = Some r ->
  exists fixedBlocks occupied gaps0 st',
    mapFixed settings (fixedTasks tasks) = Some (fixedBlocks, occupied) /\
    initialGaps tasks settings = Some gaps0 /\
    blocks r = placed st' /\
    Layout settings gaps0 fixedBlocks st' /\
    GapsOrdered gaps0 /\ Forall (gapOk 360) gaps0 /\
    (forall g blk, g ∈ gaps0 -> blk ∈ fixedBlocks ->
       gend g <= startTime blk \/ endTime blk <= gstart g) /\
    (forall blk, blk ∈ fixedBlocks -> blk ∈ blocks r).
Proof.
  intros Hb Hpos Hr.
  assert (Hpos' : forall t, t ∈ tasks -> 0 < durationMinutes t)
    by (now apply Forall_forall).
  destruct (rescheduleDay_Some _ _ _ Hr)
    as (fixedBlocks & occupied & gaps0 & st' & Hfixed & Hgaps & Hloop & Hblocks & _).
  exists fixedBlocks, occupied, gaps0, st'.
  destruct (gaps0_shape tasks settings Hb Hpos' _ _ _ Hfixed Hgaps) as [Hok Hord].
  split; [exact Hfixed |]. split; [exact Hgaps |]. split; [exact Hblocks |].
  split; [eapply final_Layout; eauto |].
  split; [exact Hord |]. split; [exact Hok |]. split.
  - intros g blk. eapply gaps0_apart_locked; eauto.
  - intros blk Hblk. rewrite Hblocks.
    destruct (fitLoop_placed_grows _ _ _ _ Hloop) as [l ->]. simpl.
    apply elem_of_app. now left.
Qed.

Lemma locked_floating_apart (tasks : list Task) (settings : UserSettings)
    (r : Result) (bl bf : ScheduleBlock) :
  0 <= bufferMinutes settings -> positiveDurations tasks ->
  rescheduleDay tasks settings = Some r ->
  bl ∈ blocks r -> bf ∈ blocks r ->
  isLocked bl = true -> isLocked bf = false ->
  endTime bl <= startTime bf \/ endTime bf <= startTime bl.
Proof.
  intros Hb Hpos Hr Hbl Hbf Hl Hf.
  destruct (rescheduleDay_layout _ _ _ Hb Hpos Hr)
    as (fixedBlocks & occupied & gaps0 & st' & _ & _ & Hblocks & HL & Hord & _ & Hap & _).
  rewrite Hblocks in *.
  pose proof (layout_locked _ _ _ _ HL _ Hbl Hl) as Hfixed.
  destruct (Layout_floating_within _ _ _ _ _ HL Hbf Hf) as (_ & g0 & Hg0 & Hw1 & Hw2).
  destruct (Hap _ _ Hg0 Hfixed); lia.
Qed.

(** ** C1: no two blocks overlap *)

(** C1, counterexample.  Two anchors at 09:00 and 09:30, an hour each: both
    are emitted as they are, 09:00-10:00 and 09:30-10:30, and these blocks
    of two different tasks overlap. *)
Lemma locked_blocks_overlap :
  exists r b1 b2,
    rescheduleDay overlappingAnchors (withBuffer 0) = Some r /\
    blocks r = [b1; b2] /\ taskId b1 <> taskId b2 /\
    ~ (endTime b1 <= startTime b2 \/ endTime b2 <= startTime b1).
Proof.
  do 3 eexists. split; [vm_compute; reflexivity |].
  split; [reflexivity |]. simpl. split; [discriminate | lia].
Qed.

(** With readable start times the engine returns. *)
Lemma mapFixed_readable (settings : UserSettings) (tasks : list Task) :
  readableStarts tasks -> is_Some (mapFixed settings (fixedTasks tasks)).
Proof.
  unfold fixedTasks. induction 1 as [| t tasks Ht _ IH]; [simpl; eauto |].
  rewrite filter_cons. destruct (decide (isFixed t)) as [Hfix | Hfix]; [| exact IH].
  simpl. destruct (startOf t) as [time |] eqn:Hstart; [| exact IH].
  destruct (Ht (Is_true_true_1 _ Hfix) time Hstart) as [start Hstart'].
  unfold minutesOf. rewrite Hstart'. destruct IH as [[bs occ] ->]. eauto.
Qed.

Lemma rescheduleDay_readable (tasks : list Task) (settings : UserSettings) :
  readableStarts tasks -> exists r, rescheduleDay tasks settings = Some r.
Proof.
  intros H. apply rescheduleDay_defined. now apply mapFixed_readable.
Qed.

Lemma floating_blocks_apart (tasks : list Task) (settings : UserSettings)
    (r : Result) (i j : nat) (bi bj : ScheduleBlock) :
  0 <= bufferMinutes settings -> positiveDurations tasks ->
  rescheduleDay tasks settings = Some r ->
  i <> j -> blocks r !! i = Some bi -> blocks r !! j = Some bj ->
  isLocked bi = false \/ isLocked bj = false ->
  endTime bi <= startTime bj \/ endTime bj <= startTime bi.
Proof.
  intros Hb Hpos Hr Hij Hi Hj Hfloat.
  assert (Hini : bi ∈ blocks r) by (apply list_elem_of_lookup; eauto).
  assert (Hinj : bj ∈ blocks r) by (apply list_elem_of_lookup; eauto).
  destruct (isLocked bi) eqn:Hli, (isLocked bj) eqn:Hlj.
  - destruct Hfloat; discriminate.
  - eapply locked_floating_apart; eauto.
  - apply or_comm. eapply locked_floating_apart; eauto.
  - destruct (rescheduleDay_layout _ _ _ Hb Hpos Hr)
      as (fixedBlocks & occupied & gaps0 & st' & _ & _ & Hblocks & HL & Hord & _).
    rewrite Hblocks in *.
    destruct (Nat.lt_trichotomy i j) as [Hlt | [Heq | Hgt]]; [| contradiction |].
    + eapply (Layout_floating_disjoint settings gaps0 fixedBlocks Hb Hord st' i j); eauto.
    + apply or_comm.
      eapply (Layout_floating_disjoint settings gaps0 fixedBlocks Hb Hord st' j i); eauto.
Qed.

(** C1, amended.  For every input whose fixed start times read as integers,
    with a buffer that is not negative and durations that are positive,
    [rescheduleDay] returns a result in which two blocks at different
    positions have disjoint ranges as soon as one of them is not locked: a
    floating block overlaps neither another floating block nor a locked
    one. *)
Theorem floating_blocks_do_not_overlap (tasks : list Task) (settings : UserSettings) :
  readableStarts tasks ->
  0 <= bufferMinutes settings -> positiveDurations tasks ->
  exists r,
    rescheduleDay tasks settings = Some r /\
    forall i j bi bj,
      i <> j -> blocks r !! i = Some bi -> blocks r !! j = Some bj ->
      isLocked bi = false \/ isLocked bj = false ->
      endTime bi <= startTime bj \/ endTime bj <= startTime bi.
Proof.
  intros Hread Hb Hpos.
  destruct (rescheduleDay_readable tasks settings Hread) as [r Hr].
  exists r. split; [exact Hr |].
  intros i j bi bj. now apply (floating_blocks_apart tasks settings r).
Qed.

Lemma readableStarts_anchorAndTask : readableStarts anchorAndTask.
Proof.
  repeat constructor; intros Hfix time Hstart;
    [inversion Hstart; subst time; eexists; reflexivity | discriminate Hfix].
Defined.

Lemma floating_blocks_do_not_overlap_witness :
  exists r,
    rescheduleDay anchorAndTask (withBuffer 15) = Some r /\
    forall i j bi bj,
      i <> j -> blocks r !! i = Some bi -> blocks r !! j = Some bj ->
      isLocked bi = false \/ isLocked bj = false ->
      endTime bi <= startTime bj \/ endTime bj <= startTime bi.
Proof.
  apply (floating_blocks_do_not_overlap anchorAndTask (withBuffer 15)).
  - exact readableStarts_anchorAndTask.
  - simpl. lia.
  - repeat constructor.
Defined.

(** A floating block lies in one original gap, and in no other. *)
Lemma floating_block_in_one_gap (tasks : list Task) (settings : UserSettings)
    (r : Result) (gaps0 : list Gap) (blk : ScheduleBlock) :
  0 <= bufferMinutes settings -> positiveDurations tasks ->
  rescheduleDay tasks settings = Some r ->
  initialGaps tasks settings = Some gaps0 ->
  blk ∈ blocks r -> isLocked blk = false ->
  exists k g, gaps0 !! k = Some g /\ within g blk /\
    forall k' g', gaps0 !! k' = Some g' -> within g' blk -> k' = k.
Proof.
  intros Hb Hpos Hr Hgaps Hblk Hfloat.
  destruct (rescheduleDay_layout _ _ _ Hb Hpos Hr)
    as (fixedBlocks & occupied & gaps0' & st' & _ & Hgaps' & Hblocks & HL & Hord & _).
  assert (gaps0' = gaps0) by congruence. subst gaps0'.
  rewrite Hblocks in Hblk.
  destruct (layout_blocks _ _ _ _ HL _ Hblk Hfloat)
    as (Hne & k & g & _ & Hk & _ & Hw & _).
  exists k, g. split; [exact Hk |]. split; [exact Hw |].
  intros k' g' Hk' Hw'. eapply within_same_gap; eauto.
Qed.

(** ** C5: the buffer between blocks of a gap *)

(** C5, counterexample.  The claim is for every input.  With a task of a
    duration below zero (100, -30 and 10 minutes, buffer 0) the start of the
    gap moves back: the blocks are 360-460, 460-430 and 430-440, and the
    third, in the same gap as the first, starts before the first ends.  With
    a buffer below zero (100, 10 and 10 minutes, buffer -20) the blocks are
    360-460, 440-450 and 430-440: the third starts at 430, before
    460 - 20. *)
Lemma buffer_not_kept_without_conditions :
  (exists r g b1 b2 b3,
     rescheduleDay negativeDuration (withBuffer 0) = Some r /\
     initialGaps negativeDuration (withBuffer 0) = Some [g] /\
     blocks r = [b1; b2; b3] /\
     isLocked b1 = false /\ isLocked b3 = false /\
     within g b1 /\ within g b3 /\
     ~ (endTime b1 + bufferMinutes (withBuffer 0) <= startTime b3)) /\
  (exists r g b1 b2 b3,
     rescheduleDay threeShortTasks (withBuffer (-20)) = Some r /\
     initialGaps threeShortTasks (withBuffer (-20)) = Some [g] /\
     blocks r = [b1; b2; b3] /\
     isLocked b1 = false /\ isLocked b3 = false /\
     within g b1 /\ within g b3 /\
     ~ (endTime b1 + bufferMinutes (withBuffer (-20)) <= startTime b3)).
Proof.
  split; do 5 eexists;
    (split; [vm_compute; reflexivity |]); (split; [reflexivity |]);
    (split; [reflexivity |]); (split; [reflexivity |]); (split; [reflexivity |]);
    vm_compute; intuition congruence.
Qed.

(** C5, amended.  With a buffer that is not negative and positive durations:
    of two floating blocks that lie in the same original gap, the one emitted
    second starts no earlier than the end of the first plus the buffer. *)
Theorem buffer_between_blocks_of_a_gap (tasks : list Task) (settings : UserSettings)
    (r : Result) (gaps0 : list Gap) (g : Gap) (i j : nat) (bi bj : ScheduleBlock) :
  0 <= bufferMinutes settings -> positiveDurations tasks ->
  rescheduleDay tasks settings = Some r ->
  initialGaps tasks settings = Some gaps0 -> g ∈ gaps0 ->
  (i < j)%nat -> blocks r !! i = Some bi -> blocks r !! j = Some bj ->
  isLocked bi = false -> isLocked bj = false ->
  within g bi -> within g bj ->
  endTime bi + bufferMinutes settings <= startTime bj.
Proof.
  intros Hb Hpos Hr Hgaps Hg Hij Hi Hj Hli Hlj Hwi Hwj.
  destruct (rescheduleDay_layout _ _ _ Hb Hpos Hr)
    as (fixedBlocks & occupied & gaps0' & st' & _ & Hgaps' & Hblocks & HL & _).
  assert (gaps0' = gaps0) by congruence. subst gaps0'.
  rewrite Hblocks in *.
  exact (layout_order _ _ _ _ HL _ _ _ _ Hij Hi Hj Hli Hlj g Hg Hwi Hwj).
Qed.

Lemma buffer_between_blocks_of_a_gap_witness :
  exists r bi bj,
    rescheduleDay twoTasks (withBuffer 10) = Some r /\
    blocks r = [bi; bj] /\
    endTime bi + 10 <= startTime bj.
Proof.
  do 3 eexists.
  split; [vm_compute; reflexivity |].
  split; [reflexivity |].
  eapply (buffer_between_blocks_of_a_gap twoTasks (withBuffer 10) _
           [mkGap 360 1380] (mkGap 360 1380) 0 1).
  - simpl. lia.
  - repeat constructor.
  - vm_compute. reflexivity.
  - reflexivity.
  - apply list_elem_of_here.
  - lia.
  - reflexivity.
  - reflexivity.
  - reflexivity.
  - reflexivity.
  - unfold within. simpl. lia.
  - unfold within. simpl. lia.
Defined.

(** ** C6: the scheduling window *)

(** C6, counterexample.  An anchor at 05:00 for 30 minutes gets its locked
    block at 05:00-05:30, before the window opens at 06:00. *)
Lemma locked_block_outside_window :
  exists r blk,
    rescheduleDay earlyAnchor (withBuffer 0) = Some r /\
    blocks r = [blk] /\ isLocked blk = true /\
    ~ (360 <= startTime blk /\ endTime blk <= 1380).
Proof.
  do 2 eexists. split; [vm_compute; reflexivity |].
  split; [reflexivity |]. split; [reflexivity |]. simpl. lia.
Qed.

Lemma gaps_end_in_window (tasks : list Task) (settings : UserSettings)
    (bs : list ScheduleBlock) (occ : list Interval) (gaps0 : list Gap) :
  0 <= bufferMinutes settings ->
  mapFixed settings (fixedTasks tasks) = Some (bs, occ) ->
  initialGaps tasks settings = Some gaps0 ->
  (forall lb, lb ∈ bs -> startTime lb <= 1380) ->
  Forall (fun g => gend g <= 1380) gaps0.
Proof.
  intros Hb Hfixed Hgaps Hstarts.
  rewrite initialGaps_eq, Hfixed in Hgaps. inversion Hgaps; subst gaps0.
  apply findGaps_end; [lia |].
  apply mergeOccupied_Forall; [simpl; intros; lia | apply sortOccupied_sorted |].
  rewrite sortOccupied_perm. apply Forall_forall. intros o Ho.
  destruct (mapFixed_facts _ _ _ _ Hfixed) as (_ & H2 & _).
  destruct (H2 _ Ho) as (t & start & _ & -> & Hlb).
  apply Hstarts in Hlb. simpl in *. lia.
Qed.

(** C6, amended.  With a buffer that is not negative and positive durations,
    every block that is not locked starts at 06:00 or later, and ends by
    23:00 when no locked block starts after 23:00.  (A locked block has the
    times of its task, wherever they fall.) *)
Theorem floating_blocks_in_window (tasks : list Task) (settings : UserSettings)
    (r : Result) (blk : ScheduleBlock) :
  0 <= bufferMinutes settings -> positiveDurations tasks ->
  rescheduleDay tasks settings = Some r ->
  blk ∈ blocks r -> isLocked blk = false ->
  360 <= startTime blk /\
  ((forall lb, lb ∈ blocks r -> isLocked lb = true -> startTime lb <= 1380) ->
   endTime blk <= 1380).
Proof.
  intros Hb Hpos Hr Hblk Hfloat.
  destruct (rescheduleDay_layout _ _ _ Hb Hpos Hr)
    as (fixedBlocks & occupied & gaps0 & st' & Hfixed & Hgaps & Hblocks & HL & _ & Hok
        & _ & Hkept).
  rewrite Hblocks in Hblk.
  destruct (Layout_floating_within _ _ _ _ _ HL Hblk Hfloat) as (_ & g0 & Hg0 & Hw1 & Hw2).
  split.
  - rewrite Forall_forall in Hok. destruct (Hok _ Hg0) as (H360 & _). lia.
  - intros Hstarts.
    assert (Hend : Forall (fun g => gend g <= 1380) gaps0).
    { eapply gaps_end_in_window; eauto.
      intros lb Hlb. apply Hstarts; [now apply Hkept |].
      destruct (mapFixed_facts _ _ _ _ Hfixed) as (H1 & _ & _).
      now destruct (H1 _ Hlb) as (t & start & _ & -> & _). }
    rewrite Forall_forall in Hend. specialize (Hend _ Hg0). lia.
Qed.

Lemma floating_blocks_in_window_witness :
  exists r anchor blk,
    rescheduleDay anchorAndTask (withBuffer 15) = Some r /\
    blocks r = [anchor; blk] /\
    360 <= startTime blk /\ endTime blk <= 1380.
Proof.
  do 3 eexists.
  split; [vm_compute; reflexivity |].
  split; [reflexivity |].
  edestruct (floating_blocks_in_window anchorAndTask (withBuffer 15)) as [Hstart Hend].
  - simpl. lia.
  - repeat constructor.
  - vm_compute. reflexivity.
  - apply list_elem_of_further, list_elem_of_here.
  - reflexivity.
  - split; [exact Hstart |]. apply Hend.
    intros lb Hlb _. simpl in Hlb.
    apply elem_of_cons in Hlb as [-> | Hlb]; [simpl; lia |].
    apply list_elem_of_singleton in Hlb. subst lb. simpl. lia.
Defined.

(** ** C7: the fixed tasks *)

(** C7, counterexample.  An anchor without [fixedStartTime] is skipped: the
    output has no block for it. *)
Lemma anchor_without_start_not_placed :
  rescheduleDay anchorWithoutStart (withBuffer 0)
  = Some {| blocks := []; rolloverTasks := [] |}.
Proof. reflexivity. Qed.

Lemma minutesOf_Some (time : string) (start : Z) :
  minutesOf time = Some start -> timeToMinutes time = Normal (Int start).
Proof.
  unfold minutesOf. destruct (timeToMinutes time) as [[z | |] | e]; try discriminate.
  intros H. now inversion H.
Qed.

(** C7, amended.  Every Anchor or Interrupt task that has a [fixedStartTime]
    (present and not the empty string) appears in [blocks] as a locked block
    from its start time to its start time plus its duration; a fixed task
    without one is skipped: every locked block is the block of a fixed task
    with a start time.  Every task in [rolloverTasks] is Floating. *)
Theorem fixed_tasks_with_start_are_placed (tasks : list Task) (settings : UserSettings)
    (r : Result) :
  rescheduleDay tasks settings = Some r ->
  (forall t time, t ∈ tasks -> isFixed t = true -> startOf t = Some time ->
     exists start blk,
       timeToMinutes time = Normal (Int start) /\
       blk ∈ blocks r /\ blk = lockedBlock t start /\
       isLocked blk = true /\ startTime blk = start /\
       endTime blk = start + durationMinutes t) /\
  (forall blk, blk ∈ blocks r -> isLocked blk = true ->
     exists t time start,
       t ∈ tasks /\ isFixed t = true /\ startOf t = Some time /\
       timeToMinutes time = Normal (Int start) /\ blk = lockedBlock t start) /\
  (forall t, t ∈ rolloverTasks r -> type t = FLOATING).
Proof.
  intros Hr.
  destruct (rescheduleDay_Some _ _ _ Hr)
    as (fixedBlocks & occupied & gaps0 & st' & Hfixed & Hgaps & Hloop & Hblocks & Hroll).
  split; [| split].
  - intros t time Ht Hfix Hstart.
    destruct (mapFixed_facts _ _ _ _ Hfixed) as (_ & _ & H3).
    destruct (H3 t time) as (start & Hmin & Hin); [| exact Hstart |].
    { now apply fixedTasks_elem_of. }
    exists start, (lockedBlock t start).
    split; [now apply minutesOf_Some |]. split; [| now repeat split].
    rewrite Hblocks. destruct (fitLoop_placed_grows _ _ _ _ Hloop) as [l ->].
    simpl. apply elem_of_app. now left.
  - intros blk Hblk Hl. rewrite Hblocks in Hblk.
    pose proof (fitLoop_locked _ _ _ _ _ Hloop Hblk Hl) as Hin. simpl in Hin.
    destruct (mapFixed_origin _ _ _ _ _ Hfixed Hin) as (t & time & start & Ht & Hs & Hm & ->).
    apply fixedTasks_elem_of in Ht as [Hfix Ht].
    exists t, time, start. repeat split; auto. now apply minutesOf_Some.
  - intros t Ht. rewrite Hroll in Ht.
    assert (Hall : allFloating st').
    { eapply (fitLoop_invariant settings allFloating); [| | exact Hloop].
      - intros s s'. apply allFloating_step.
      - intros t' Ht'. simpl in Ht'. rewrite app_nil_r in Ht'.
        rewrite floatingTasks_perm in Ht'. apply list_elem_of_filter in Ht' as [Hp _].
        unfold isPending in Hp. destruct (type t'); simpl in Hp; tauto. }
    apply Hall. apply elem_of_app. now right.
Qed.

Lemma fixed_tasks_with_start_are_placed_witness :
  exists r,
    rescheduleDay anchorAndTask (withBuffer 15) = Some r /\
    (forall t time, t ∈ anchorAndTask -> isFixed t = true -> startOf t = Some time ->
       exists start blk,
         timeToMinutes time = Normal (Int start) /\
         blk ∈ blocks r /\ blk = lockedBlock t start /\
         isLocked blk = true /\ startTime blk = start /\
         endTime blk = start + durationMinutes t) /\
    (forall blk, blk ∈ blocks r -> isLocked blk = true ->
       exists t time start,
         t ∈ anchorAndTask /\ isFixed t = true /\ startOf t = Some time /\
         timeToMinutes time = Normal (Int start) /\ blk = lockedBlock t start) /\
    (forall t, t ∈ rolloverTasks r -> type t = FLOATING).
Proof.
  eexists. split; [vm_compute; reflexivity |].
  apply (fixed_tasks_with_start_are_placed anchorAndTask (withBuffer 15)).
  vm_compute. reflexivity.
Defined.

(** ** C2 and C3: blocks, split parts and rollover *)

Lemma rescheduleDay_account (fb : ScheduleBlock -> Z) (ft : Task -> Z)
    (tasks : list Task) (settings : UserSettings) (r : Result) :
  (forall task s, fb (floatingBlock task s) = ft task) ->
  (forall task s fit,
     fb (partABlock task s fit) + ft (partB task (durationMinutes task - fit)) = ft task) ->
  (forall task s, fb (lockedBlock task s) = 0) ->
  rescheduleDay tasks settings = Some r ->
  sumOf fb (blocks r) + sumOf ft (rolloverTasks r)
  = sumOf ft (filter isPending tasks).
Proof.
  intros Hwhole Hsplit Hlocked Hr.
  destruct (rescheduleDay_Some _ _ _ Hr)
    as (fixedBlocks & occupied & gaps0 & st' & Hfixed & Hgaps & Hloop & Hblocks & Hroll).
  pose proof (account_fitLoop settings fb ft Hwhole Hsplit _ _ _ Hloop) as Hacc.
  unfold account in Hacc. simpl in Hacc.
  rewrite (fitLoop_queue_empty _ _ _ _ Hloop) in Hacc. simpl in Hacc.
  rewrite Hblocks, Hroll, <- (sumOf_perm ft _ _ (floatingTasks_perm tasks)).
  rewrite (sumOf_zero fb fixedBlocks) in Hacc; [lia |].
  intros blk Hblk. destruct (mapFixed_facts _ _ _ _ Hfixed) as (H1 & _ & _).
  destruct (H1 _ Hblk) as (t & start & _ & -> & _). apply Hlocked.
Qed.

(** C2, counterexample.  A splittable task of 1100 minutes on an empty day:
    its Part 1 fills the window, 06:00-23:00, and its Part 2 remainder of 80
    minutes is in [rolloverTasks].  The task is in both outputs. *)
Lemma part1_placed_and_part2_rolled_over :
  exists r blk rest,
    rescheduleDay longTask (withBuffer 0) = Some r /\
    blocks r = [blk] /\ rolloverTasks r = [rest] /\
    taskId blk = "A" /\ blockId blk = PartABlock "A" /\
    id rest = "A" /\ title rest = "TA (Part 2)".
Proof.
  do 3 eexists. split; [vm_compute; reflexivity |]. repeat split.
Qed.

(** C2, amended.  For every task id, the Floating tasks of the input that
    are not Completed and carry that id are as many as the blocks placed
    whole with that id plus the entries of [rolloverTasks] with that id: each
    such task ends in exactly one of the two, as itself or as its last
    remainder.  So every such task has a block placed whole or an entry in
    [rolloverTasks] (never neither); the Part 1 blocks of a split come on
    top, also when the remainder rolls over. *)
Theorem floating_tasks_accounted (tasks : list Task) (settings : UserSettings)
    (r : Result) :
  rescheduleDay tasks settings = Some r ->
  (forall i, sumOf (isWhole i) (blocks r) + sumOf (hasId i) (rolloverTasks r)
             = sumOf (hasId i) (filter isPending tasks)) /\
  (forall t, t ∈ tasks -> isPending t = true ->
     (exists blk, blk ∈ blocks r /\ blockId blk = PlacedBlock (id t)) \/
     (exists t', t' ∈ rolloverTasks r /\ id t' = id t)).
Proof.
  intros Hr.
  assert (Hcount : forall i,
            sumOf (isWhole i) (blocks r) + sumOf (hasId i) (rolloverTasks r)
            = sumOf (hasId i) (filter isPending tasks)).
  { intros i. apply (rescheduleDay_account (isWhole i) (hasId i) tasks settings);
      [reflexivity | reflexivity | reflexivity | exact Hr]. }
  split; [exact Hcount |].
  intros t Ht Hp. specialize (Hcount (id t)).
  assert (Hnonneg : forall y, 0 <= hasId (id t) y)
    by (intros y; unfold hasId; destruct (String.eqb _ _); lia).
  assert (Hone : 1 <= sumOf (hasId (id t)) (filter isPending tasks)).
  { assert (Hin : t ∈ filter isPending tasks)
      by (apply list_elem_of_filter; split; [now rewrite Hp | exact Ht]).
    pose proof (sumOf_elem_le _ _ _ Hnonneg Hin) as Hle.
    unfold hasId at 1 in Hle. now rewrite String.eqb_refl in Hle. }
  destruct (Z.lt_ge_cases 0 (sumOf (isWhole (id t)) (blocks r))) as [Hw | Hw].
  - left. destruct (sumOf_positive _ _ Hw) as (blk & Hblk & Hpos).
    exists blk. split; [exact Hblk |].
    unfold isWhole in Hpos. destruct (blockId blk) as [j | j | j]; try lia.
    destruct (String.eqb_spec j (id t)); [now subst | lia].
  - right. destruct (sumOf_positive (hasId (id t)) (rolloverTasks r)) as (t' & Ht' & Hpos);
      [lia |].
    exists t'. split; [exact Ht' |].
    unfold hasId in Hpos. destruct (String.eqb_spec (id t') (id t)); [assumption | lia].
Qed.

Lemma floating_tasks_accounted_witness :
  exists r,
    rescheduleDay longTask (withBuffer 0) = Some r /\
    (forall i, sumOf (isWhole i) (blocks r) + sumOf (hasId i) (rolloverTasks r)
               = sumOf (hasId i) (filter isPending longTask)) /\
    (forall t, t ∈ longTask -> isPending t = true ->
       (exists blk, blk ∈ blocks r /\ blockId blk = PlacedBlock (id t)) \/
       (exists t', t' ∈ rolloverTasks r /\ id t' = id t)).
Proof.
  eexists. split; [vm_compute; reflexivity |].
  apply (floating_tasks_accounted longTask (withBuffer 0)).
  vm_compute. reflexivity.
Defined.

(** C3, counterexample.  Three gaps of 60, 60 and 10 minutes and a splittable
    task of 130 minutes: the task is split twice and is represented by three
    blocks, of 60, 60 and 10 minutes, the last one shorter than 15. *)
Lemma task_split_into_three_blocks :
  exists r,
    rescheduleDay threeGaps (withBuffer 0) = Some r /\
    floatingParts r
    = [(PartABlock "A", 60); (PartABlock "A", 60); (PlacedBlock "A", 10)] /\
    rolloverTasks r = [].
Proof.
  eexists. split; [vm_compute; reflexivity |]. split; reflexivity.
Qed.

(** C3, amended.  For every task id, the minutes of the floating blocks of
    that task plus the [durationMinutes] of the rollover entries with that id
    are the [durationMinutes] of the Floating tasks of the input that are not
    Completed and carry that id: a split loses no minute, whether the
    remainder is placed, split again or rolled over.  Every Part 1 block is
    at least 15 minutes long. *)
Theorem split_conserves_minutes (tasks : list Task) (settings : UserSettings)
    (r : Result) :
  rescheduleDay tasks settings = Some r ->
  (forall i, sumOf (blockMinutes i) (blocks r) + sumOf (taskMinutes i) (rolloverTasks r)
             = sumOf (taskMinutes i) (filter isPending tasks)) /\
  (forall blk, blk ∈ blocks r -> isPartA blk = true ->
     15 <= endTime blk - startTime blk).
Proof.
  intros Hr. split.
  - intros i. apply (rescheduleDay_account (blockMinutes i) (taskMinutes i) tasks settings);
      [| | reflexivity | exact Hr].
    + intros t s. unfold blockMinutes, taskMinutes. simpl.
      destruct (String.eqb (id t) i); lia.
    + intros t s fit. unfold blockMinutes, taskMinutes. simpl.
      destruct (String.eqb (id t) i); lia.
  - destruct (rescheduleDay_Some _ _ _ Hr)
      as (fixedBlocks & occupied & gaps0 & st' & Hfixed & Hgaps & Hloop & Hblocks & Hroll).
    rewrite Hblocks.
    eapply (fitLoop_invariant settings partsLong); [| | exact Hloop].
    + intros s s'. apply partsLong_step.
    + intros blk Hblk Hpart. simpl in Hblk.
      destruct (mapFixed_facts _ _ _ _ Hfixed) as (H1 & _ & _).
      destruct (H1 _ Hblk) as (t & start & _ & -> & _). discriminate Hpart.
Qed.

Lemma split_conserves_minutes_witness :
  exists r,
    rescheduleDay threeGaps (withBuffer 0) = Some r /\
    (forall i, sumOf (blockMinutes i) (blocks r) + sumOf (taskMinutes i) (rolloverTasks r)
               = sumOf (taskMinutes i) (filter isPending threeGaps)) /\
    (forall blk, blk ∈ blocks r -> isPartA blk = true ->
       15 <= endTime blk - startTime blk).
Proof.
  eexists. split; [vm_compute; reflexivity |].
  apply (split_conserves_minutes threeGaps (withBuffer 0)).
  vm_compute. reflexivity.
Defined.

(** * Further properties of the code *)

(** ** The time codec on other inputs *)

Lemma split_noColon (s : string) : noColon s = true -> split ":" s = [s].
Proof.
  induction s as [| c s IH]; simpl; [reflexivity |].
  intros H. apply andb_true_iff in H as [Hc Hs].
  apply negb_true_iff in Hc. rewrite Hc, (IH Hs). reflexivity.
Qed.

Lemma split_app_colon (a b : string) :
  noColon a = true -> split ":" (a ++ String ":" b) = a :: split ":" b.
Proof.
  induction a as [| c a IH]; simpl; [reflexivity |].
  intros H. apply andb_true_iff in H as [Hc Ha].
  apply negb_true_iff in Hc. rewrite Hc, (IH Ha). reflexivity.
Qed.

(** X1.  Only the first two pieces of the string count: what follows a
    second colon (seconds, say) is ignored. *)
Theorem timeToMinutes_ignores_third_piece (h m rest : string) :
  noColon h = true -> noColon m = true ->
  timeToMinutes (h ++ ":" ++ m ++ ":" ++ rest) = timeToMinutes (h ++ ":" ++ m).
Proof.
  intros Hh Hm. unfold timeToMinutes.
  change (h ++ ":" ++ m ++ ":" ++ rest) with (h ++ String ":" (m ++ String ":" rest)).
  change (h ++ ":" ++ m) with (h ++ String ":" m).
  rewrite !(split_app_colon h) by exact Hh.
  rewrite (split_app_colon m) by exact Hm.
  rewrite (split_noColon m) by exact Hm.
  reflexivity.
Qed.

Lemma timeToMinutes_ignores_third_piece_witness :
  timeToMinutes "09:05:59" = timeToMinutes "09:05".
Proof.
  exact (timeToMinutes_ignores_third_piece "09" "05" "59" eq_refl eq_refl).
Defined.

Lemma forallb_range2 (P : Z -> Z -> bool) (n k : nat) :
  forallb (fun a => forallb (P a) (map Z.of_nat (seq 0 k)))
          (map Z.of_nat (seq 0 n)) = true ->
  forall a b, 0 <= a < Z.of_nat n -> 0 <= b < Z.of_nat k -> P a b = true.
Proof.
  intros H a b Ha Hb.
  pose proof (forallb_range _ n H a Ha) as H1. simpl in H1.
  exact (forallb_range _ k H1 b Hb).
Qed.

(** X2.  Hours and minutes need no padding and no range: for the plain
    decimal writing of any [h] and [m] from 0 to 99, the result is
    [h * 60 + m]. *)
Theorem timeToMinutes_unpadded (h m : Z) :
  0 <= h < 100 -> 0 <= m < 100 ->
  timeToMinutes (toString h ++ ":" ++ toString m) = Normal (Int (h * 60 + m)).
Proof.
  intros Hh Hm. apply returnsInt_true.
  apply (forallb_range2
           (fun a b => returnsInt (timeToMinutes (toString a ++ ":" ++ toString b))
                         (a * 60 + b)) 100 100); [| lia | lia].
  vm_compute. reflexivity.
Qed.

Lemma timeToMinutes_unpadded_witness :
  timeToMinutes "9:75" = Normal (Int 615).
Proof. apply (timeToMinutes_unpadded 9 75); lia. Defined.

(** X3.  [minutesToTime] does not wrap at 24 hours: up to 99:59 the hour
    field is minutes / 60 on two digits (24 and more from 1440 on), and
    [timeToMinutes] reads the string back to the same number. *)
Theorem minutesToTime_does_not_wrap (n : Z) :
  0 <= n < 6000 ->
  minutesToTime (Int n) = Some (canonicalTime (n / 60) (n mod 60)) /\
  timeToMinutes (canonicalTime (n / 60) (n mod 60)) = Normal (Int n).
Proof.
  intros Hn. apply roundTrips_spec.
  apply (forallb_range roundTrips (Z.to_nat 6000)); [| lia].
  vm_compute. reflexivity.
Qed.

Lemma minutesToTime_does_not_wrap_witness :
  minutesToTime (Int 1500) = Some "25:00" /\
  timeToMinutes "25:00" = Normal (Int 1500).
Proof. apply (minutesToTime_does_not_wrap 1500). lia. Defined.

(** X4.  Negative minutes do not survive the round trip: for [n] from -1440
    to -1, reading [minutesToTime n] back gives [n] when [n] is a multiple
    of 60 and [n - 60] otherwise (both fields carry a minus sign). *)
Theorem negative_minutes_read_back (n : Z) :
  -1440 <= n < 0 ->
  exists s, minutesToTime (Int n) = Some s /\
    timeToMinutes s = Normal (Int (if n mod 60 =? 0 then n else n - 60)).
Proof.
  intros Hn.
  assert (H : readsBack n (if n mod 60 =? 0 then n else n - 60) = true).
  { replace n with (- (- n - 1) - 1) by lia.
    apply (forallb_range
             (fun k => readsBack (- k - 1)
                         (if (- k - 1) mod 60 =? 0 then - k - 1 else - k - 1 - 60))
             1440); [| lia].
    vm_compute. reflexivity. }
  unfold readsBack in H. destruct (minutesToTime (Int n)) as [s |]; [| discriminate].
  exists s. split; [reflexivity |]. now apply returnsInt_true.
Qed.

Lemma negative_minutes_read_back_witness :
  exists s, minutesToTime (Int (-5)) = Some s /\ timeToMinutes s = Normal (Int (-65)).
Proof. apply (negative_minutes_read_back (-5)). lia. Defined.

(** ** The occupied ranges: sort and merge *)

Lemma mergeFrom_head (rest : list Interval) (c : Interval) :
  exists m l, mergeFrom c rest = m :: l /\ istart m = istart c.
Proof.
  revert c. induction rest as [| o rest IH]; intros c; simpl; [eauto |].
  destruct (istart o <? iend c); [| eauto].
  destruct (IH {| istart := istart c; iend := Z.max (iend c) (iend o) |})
    as (m & l & Heq & Hm).
  eauto.
Qed.

Lemma mergeFrom_apart (rest : list Interval) (c : Interval) :
  Sorted (fun a b => iend a <= istart b) (mergeFrom c rest).
Proof.
  revert c. induction rest as [| o rest IH]; intros c; simpl.
  - repeat constructor.
  - destruct (Z.ltb_spec (istart o) (iend c)) as [Hlt | Hge]; [apply IH |].
    constructor; [apply IH |].
    destruct (mergeFrom_head rest o) as (m & l & -> & Hm).
    constructor. lia.
Qed.

(** X5.  Sorting the occupied ranges by start and merging them gives ranges
    in ascending order of start, each ending no later than the next one
    starts; every range of the input is covered by one of them, and every
    one of them starts where a range of the input starts and ends where one
    ends. *)
Theorem merged_ranges (occupied : list Interval) :
  let merged := mergeOccupied (sortOccupied occupied) in
  StronglySorted byStart merged /\
  Sorted (fun a b => iend a <= istart b) merged /\
  (forall o, o ∈ occupied -> exists m, m ∈ merged /\ covers m o) /\
  (forall m, m ∈ merged ->
     (exists o, o ∈ occupied /\ istart m = istart o) /\
     (exists o, o ∈ occupied /\ iend m = iend o)).
Proof.
  simpl.
  destruct (mergeOccupied_facts (sortOccupied occupied) (sortOccupied_sorted _))
    as [Hsorted Hcover].
  split; [exact Hsorted |]. split; [| split].
  - destruct (sortOccupied occupied) as [| c rest]; simpl;
      [constructor | apply mergeFrom_apart].
  - intros o Ho. apply Hcover. now rewrite sortOccupied_perm.
  - apply Forall_forall.
    apply (mergeOccupied_Forall
             (fun m => (exists o, o ∈ occupied /\ istart m = istart o) /\
                       (exists o, o ∈ occupied /\ iend m = iend o))).
    + intros c o [Hcs Hce] [Hos Hoe] _ _. simpl. split; [exact Hcs |].
      destruct (Z.max_spec (iend c) (iend o)) as [[_ ->] | [_ ->]]; assumption.
    + apply sortOccupied_sorted.
    + rewrite sortOccupied_perm. apply Forall_forall. intros o Ho. split; eauto.
Qed.

(** A time in a merged range is in a range of the list that was merged. *)
Lemma merged_inRange (occupied : list Interval) (t : Z) (m : Interval) :
  m ∈ mergeOccupied (sortOccupied occupied) -> inRange t m ->
  exists o, o ∈ occupied /\ inRange t o.
Proof.
  intros Hm. revert m Hm.
  apply (Forall_forall (fun m => inRange t m -> exists o, o ∈ occupied /\ inRange t o)).
  apply mergeOccupied_Forall.
  - unfold inRange. simpl. intros c o Hc Ho Hs Hlt Ht.
    destruct (Z.lt_ge_cases t (iend c)); [apply Hc | apply Ho]; lia.
  - apply sortOccupied_sorted.
  - rewrite sortOccupied_perm. apply Forall_forall. intros o Ho Ht. eauto.
Qed.

(** ** The gaps *)

Lemma findGaps_complete (dayEnd t : Z) (occupied : list Interval) (cursor : Z) :
  cursor <= t < dayEnd ->
  (forall o, o ∈ occupied -> ~ inRange t o) ->
  exists g, g ∈ findGaps cursor dayEnd occupied /\ inGap t g.
Proof.
  revert cursor. induction occupied as [| o rest IH]; intros cursor Ht Hfree; simpl.
  - destruct (Z.ltb_spec cursor dayEnd); [| lia].
    exists (mkGap cursor dayEnd). split; [apply list_elem_of_here |].
    unfold inGap. simpl. lia.
  - assert (Ho : ~ inRange t o) by (apply Hfree, list_elem_of_here).
    assert (Hrest : forall o', o' ∈ rest -> ~ inRange t o')
      by (intros o' Ho'; apply Hfree; now apply list_elem_of_further).
    destruct (Z.leb_spec (iend o) cursor) as [Hskip | Hlive]; [now apply IH |].
    destruct (Z.lt_ge_cases t (istart o)) as [Hbefore | Hafter].
    + destruct (Z.ltb_spec cursor (istart o)); [| lia].
      exists (mkGap cursor (istart o)). split; [apply list_elem_of_here |].
      unfold inGap. simpl. lia.
    + destruct (IH (Z.max cursor (iend o))) as (g & Hg & Hin); [| exact Hrest |].
      { unfold inRange in Ho. lia. }
      exists g. split; [| exact Hin]. apply elem_of_app. now right.
Qed.

(** X6.  The gaps are the free time of the window: a time from [cursor] up
    to [dayEnd] lies in a gap exactly when it lies in no occupied range. *)
Theorem gaps_are_the_free_time (occupied : list Interval) (cursor dayEnd t : Z) :
  cursor <= t < dayEnd ->
  (exists g, g ∈ findGaps cursor dayEnd (mergeOccupied (sortOccupied occupied)) /\
             inGap t g)
  <-> (forall o, o ∈ occupied -> ~ inRange t o).
Proof.
  intros Ht.
  destruct (mergeOccupied_facts (sortOccupied occupied) (sortOccupied_sorted _))
    as [Hsorted Hcover].
  split.
  - intros (g & Hg & Hin) o Ho Hocc.
    assert (Ho' : o ∈ sortOccupied occupied) by (now rewrite sortOccupied_perm).
    pose proof (findGaps_apart dayEnd o _ cursor Hsorted (or_intror (Hcover _ Ho')) g Hg).
    unfold inGap, inRange in *. lia.
  - intros Hfree. apply findGaps_complete; [exact Ht |].
    intros m Hm Hin. destruct (merged_inRange _ _ _ Hm Hin) as (o & Ho & Hto).
    exact (Hfree o Ho Hto).
Qed.

Lemma gaps_are_the_free_time_witness :
  (exists g, g ∈ findGaps 360 1380
                   (mergeOccupied (sortOccupied [{| istart := 525; iend := 645 |}]))
             /\ inGap 400 g)
  <-> (forall o, o ∈ [{| istart := 525; iend := 645 |}] -> ~ inRange 400 o).
Proof. apply (gaps_are_the_free_time _ 360 1380 400). lia. Defined.

(** ** The task selector *)

Lemma insertBy_sorted_rel {A : Type} (cmp : A -> A -> Z) (R : A -> A -> Prop)
    (x : A) (l : list A) :
  (forall a b, cmp a b <= 0 -> R a b) ->
  (forall a b, 0 < cmp a b -> R b a) ->
  (forall a b c, R a b -> R b c -> R a c) ->
  StronglySorted R l -> StronglySorted R (insertBy cmp x l).
Proof.
  intros Hle Hgt Htrans. induction 1 as [| y l Hs IH Hy]; simpl.
  - repeat constructor.
  - destruct (Z.leb_spec (cmp x y) 0) as [Hxy | Hxy].
    + constructor; [now constructor |].
      constructor; [now apply Hle |].
      eapply Forall_impl; [exact Hy |]. simpl. intros z Hz.
      eapply Htrans; [apply Hle; exact Hxy | exact Hz].
    + constructor; [exact IH |].
      rewrite insertBy_perm. constructor; [now apply Hgt | exact Hy].
Qed.

(** X7.  The queue of the fitting loop holds the Floating tasks that are not
    Completed, each as often as in the input, ordered by priority ascending
    and, at equal priority, by duration descending. *)
Theorem floatingTasks_ordered (tasks : list Task) :
  floatingTasks tasks ≡ₚ filter isPending tasks /\
  StronglySorted taskBefore (floatingTasks tasks).
Proof.
  split; [apply floatingTasks_perm |].
  unfold floatingTasks. induction (filter isPending tasks) as [| x l IH]; simpl;
    [constructor |].
  apply insertBy_sorted_rel; [| | | exact IH]; unfold compareTasks, taskBefore.
  - intros a b. destruct (Z.eqb_spec (priority a) (priority b)); lia.
  - intros a b. destruct (Z.eqb_spec (priority a) (priority b)); lia.
  - intros a b c. lia.
Qed.

(** ** Where blocks and rollover entries come from *)

Lemma isPending_type (t : Task) : isPending t = true -> type t = FLOATING.
Proof.
  unfold isPending. destruct (type t); simpl; [discriminate | reflexivity | discriminate].
Qed.

Lemma remainderOf_refl (t : Task) : remainderOf t t.
Proof. unfold remainderOf. repeat split; lia. Qed.

Lemma Provenance_step (tasks : list Task) (settings : UserSettings) (st st' : State) :
  Provenance tasks st -> step settings st = Some st' -> Provenance tasks st'.
Proof.
  intros [Htasks Hblocks] Hstep.
  destruct (step_cases _ _ _ Hstep) as
    [task rest i gap Hq _ _ -> |
     task rest i largest fit Hq _ _ _ Hsp H30 _ Hfit -> |
     task rest Hq _ ->]; rewrite Hq in Htasks; split; simpl.
  - intros t Ht. apply Htasks. now apply list_elem_of_further.
  - intros blk Hblk Hl. apply elem_of_app in Hblk as [Hblk | Hblk]; [auto |].
    apply list_elem_of_singleton in Hblk. subst blk.
    destruct (Htasks task) as (t0 & Ht0 & Hp & Hrem); [apply list_elem_of_here |].
    destruct Hrem as (Hid & Hty & Hpr & _).
    exists t0. simpl. repeat split; auto; try discriminate.
    rewrite Hty. now apply isPending_type.
  - intros t Ht. apply elem_of_cons in Ht as [-> | Ht].
    + destruct (Htasks task) as (t0 & Ht0 & Hp & Hrem); [apply list_elem_of_here |].
      exists t0. split; [exact Ht0 |]. split; [exact Hp |].
      unfold remainderOf in *. simpl. repeat split; try tauto. lia.
    + apply Htasks. now apply list_elem_of_further.
  - intros blk Hblk Hl. apply elem_of_app in Hblk as [Hblk | Hblk]; [auto |].
    apply list_elem_of_singleton in Hblk. subst blk.
    destruct (Htasks task) as (t0 & Ht0 & Hp & Hrem); [apply list_elem_of_here |].
    destruct Hrem as (Hid & Hty & Hpr & Hspl & _ & _ & _ & Hdur).
    exists t0. simpl. repeat split; auto; try congruence; try lia.
    rewrite Hty. now apply isPending_type.
  - intros t Ht. apply Htasks. rewrite app_assoc in Ht.
    apply elem_of_app in Ht as [Ht | Ht]; [now apply list_elem_of_further |].
    apply list_elem_of_singleton in Ht. subst t. apply list_elem_of_here.
  - exact Hblocks.
Qed.

Lemma rescheduleDay_Provenance (tasks : list Task) (settings : UserSettings)
    (r : Result) :
  rescheduleDay tasks settings = Some r ->
  exists st, blocks r = placed st /\ rolloverTasks r = rollover st /\
             queue st = [] /\ Provenance tasks st.
Proof.
  intros Hr.
  destruct (rescheduleDay_Some _ _ _ Hr)
    as (fixedBlocks & occupied & gaps0 & st' & Hfixed & Hgaps & Hloop & Hblocks & Hroll).
  exists st'. split; [exact Hblocks |]. split; [exact Hroll |].
  split; [exact (fitLoop_queue_empty _ _ _ _ Hloop) |].
  eapply (fitLoop_invariant settings (Provenance tasks)); [| | exact Hloop].
  - intros s s'. apply Provenance_step.
  - split; simpl.
    + intros t Ht. rewrite app_nil_r in Ht.
      rewrite floatingTasks_perm in Ht. apply list_elem_of_filter in Ht as [Hp Ht].
      exists t. split; [exact Ht |]. split; [| apply remainderOf_refl].
      now destruct (isPending t).
    + intros blk Hblk Hl. exfalso.
      destruct (mapFixed_facts _ _ _ _ Hfixed) as (H1 & _ & _).
      destruct (H1 _ Hblk) as (t & start & _ & -> & _). discriminate Hl.
Qed.

(** X9.  Nothing is made up: every block that is not locked carries the id
    and the priority of a Floating task of the input that is not Completed,
    has the type Floating and the status Scheduled; every entry of
    [rolloverTasks] has the id, type, priority, splittable flag and status of
    such a task (the status is not set to Rollover) and is no longer than
    it. *)
Theorem blocks_and_rollover_come_from_tasks (tasks : list Task)
    (settings : UserSettings) (r : Result) :
  rescheduleDay tasks settings = Some r ->
  (forall blk, blk ∈ blocks r -> isLocked blk = false ->
     exists t0, t0 ∈ tasks /\ isPending t0 = true /\
       taskId blk = id t0 /\ taskType blk = FLOATING /\
       blockPriority blk = priority t0 /\ blockStatus blk = SCHEDULED) /\
  (forall t, t ∈ rolloverTasks r ->
     exists t0, t0 ∈ tasks /\ isPending t0 = true /\ remainderOf t0 t).
Proof.
  intros Hr.
  destruct (rescheduleDay_Provenance _ _ _ Hr) as (st & -> & -> & Hq & Htasks & Hblocks).
  split.
  - intros blk Hblk Hl.
    destruct (Hblocks _ Hblk Hl) as (t0 & H1 & H2 & H3 & H4 & H5 & H6 & _).
    exists t0. tauto.
  - intros t Ht. apply Htasks. apply elem_of_app. now right.
Qed.

Lemma blocks_and_rollover_come_from_tasks_witness :
  exists r,
    rescheduleDay longTask (withBuffer 0) = Some r /\
    (forall blk, blk ∈ blocks r -> isLocked blk = false ->
       exists t0, t0 ∈ longTask /\ isPending t0 = true /\
         taskId blk = id t0 /\ taskType blk = FLOATING /\
         blockPriority blk = priority t0 /\ blockStatus blk = SCHEDULED) /\
    (forall t, t ∈ rolloverTasks r ->
       exists t0, t0 ∈ longTask /\ isPending t0 = true /\ remainderOf t0 t).
Proof.
  eexists. split; [vm_compute; reflexivity |].
  apply (blocks_and_rollover_come_from_tasks longTask (withBuffer 0)).
  vm_compute. reflexivity.
Defined.

(** X10.  Only a splittable task of more than 30 minutes is ever split:
    every Part 1 block carries the id of a Floating task of the input that is
    not Completed, is splittable and is longer than 30 minutes. *)
Theorem only_long_splittable_tasks_are_split (tasks : list Task)
    (settings : UserSettings) (r : Result) (blk : ScheduleBlock) :
  rescheduleDay tasks settings = Some r ->
  blk ∈ blocks r -> isPartA blk = true ->
  exists t0, t0 ∈ tasks /\ isPending t0 = true /\ taskId blk = id t0 /\
    isSplittable t0 = true /\ 30 < durationMinutes t0.
Proof.
  intros Hr Hblk Hpart.
  destruct (rescheduleDay_Some _ _ _ Hr)
    as (fixedBlocks & occupied & gaps0 & st' & Hfixed & _ & Hloop & Hblocks & _).
  assert (Hl : isLocked blk = false).
  { destruct (isLocked blk) eqn:Hl; [| reflexivity]. exfalso.
    rewrite Hblocks in Hblk.
    pose proof (fitLoop_locked _ _ _ _ _ Hloop Hblk Hl) as Hin. simpl in Hin.
    destruct (mapFixed_origin _ _ _ _ _ Hfixed Hin) as (t & time & start & _ & _ & _ & ->).
    discriminate Hpart. }
  destruct (rescheduleDay_Provenance _ _ _ Hr) as (st & Hb & _ & _ & _ & Hprov).
  rewrite Hb in Hblk.
  destruct (Hprov _ Hblk Hl) as (t0 & H1 & H2 & H3 & _ & _ & _ & H7).
  destruct (H7 Hpart). exists t0. tauto.
Qed.

Lemma only_long_splittable_tasks_are_split_witness :
  exists r blk,
    rescheduleDay longTask (withBuffer 0) = Some r /\ blocks r = [blk] /\
    exists t0, t0 ∈ longTask /\ isPending t0 = true /\ taskId blk = id t0 /\
      isSplittable t0 = true /\ 30 < durationMinutes t0.
Proof.
  do 2 eexists. split; [vm_compute; reflexivity |]. split; [reflexivity |].
  eapply (only_long_splittable_tasks_are_split longTask (withBuffer 0)).
  - vm_compute. reflexivity.
  - apply list_elem_of_here.
  - reflexivity.
Defined.

(** ** Deleting a task *)

Lemma deleteTask_elem_of (i : string) (tasks : list Task) (t : Task) :
  t ∈ deleteTask i tasks <-> id t <> i /\ t ∈ tasks.
Proof.
  unfold deleteTask. rewrite list_elem_of_filter.
  destruct (String.eqb_spec (id t) i); simpl; intuition congruence.
Qed.

(** X14.  After [deleteTask] the schedule has nothing left of the task: no
    block, locked or not, whole or part, and no rollover entry carries the
    deleted id. *)
Theorem deleted_task_leaves_the_schedule (i : string) (tasks : list Task)
    (settings : UserSettings) (r : Result) :
  rescheduleDay (deleteTask i tasks) settings = Some r ->
  (forall blk, blk ∈ blocks r -> taskId blk <> i) /\
  (forall t, t ∈ rolloverTasks r -> id t <> i).
Proof.
  intros Hr.
  destruct (rescheduleDay_Some _ _ _ Hr)
    as (fixedBlocks & occupied & gaps0 & st' & Hfixed & _ & Hloop & Hblocks & _).
  destruct (rescheduleDay_Provenance _ _ _ Hr) as (st & Hb & Hro & _ & Htasks & Hprov).
  split.
  - intros blk Hblk. destruct (isLocked blk) eqn:Hl.
    + rewrite Hblocks in Hblk.
      pose proof (fitLoop_locked _ _ _ _ _ Hloop Hblk Hl) as Hin. simpl in Hin.
      destruct (mapFixed_origin _ _ _ _ _ Hfixed Hin) as (t & time & start & Ht & _ & _ & ->).
      apply fixedTasks_elem_of in Ht as [_ Ht].
      apply deleteTask_elem_of in Ht as [Hne _]. exact Hne.
    + rewrite Hb in Hblk.
      destruct (Hprov _ Hblk Hl) as (t0 & Ht0 & _ & Hid & _).
      apply deleteTask_elem_of in Ht0 as [Hne _]. congruence.
  - intros t Ht. rewrite Hro in Ht.
    destruct (Htasks t) as (t0 & Ht0 & _ & Hid & _); [apply elem_of_app; now right |].
    apply deleteTask_elem_of in Ht0 as [Hne _]. congruence.
Qed.

Lemma deleted_task_leaves_the_schedule_witness :
  exists r,
    rescheduleDay (deleteTask "A" threeGaps) (withBuffer 0) = Some r /\
    (forall blk, blk ∈ blocks r -> taskId blk <> "A") /\
    (forall t, t ∈ rolloverTasks r -> id t <> "A").
Proof.
  eexists. split; [vm_compute; reflexivity |].
  apply (deleted_task_leaves_the_schedule "A" threeGaps (withBuffer 0)).
  vm_compute. reflexivity.
Defined.

(** ** The order of the result *)

Lemma mapFixed_ids (settings : UserSettings) (fixed : list Task)
    (bs : list ScheduleBlock) (occ : list Interval) :
  mapFixed settings fixed = Some (bs, occ) ->
  map taskId bs = map id (filter hasStart fixed).
Proof.
  revert bs occ. induction fixed as [| t fixed IH]; intros bs occ; simpl.
  - intros H. now inversion H.
  - unfold hasStart at 1. destruct (startOf t) as [time |] eqn:Hstart.
    + destruct (minutesOf time) as [start |]; [| discriminate].
      destruct (mapFixed settings fixed) as [[bs' occ'] |]; [| discriminate].
      intros H. inversion H; subst bs occ.
      rewrite filter_cons_True by (unfold hasStart; now rewrite Hstart).
      simpl. f_equal. now apply (IH bs' occ').
    + intros H.
      rewrite filter_cons_False by (unfold hasStart; rewrite Hstart; simpl; tauto).
      now apply (IH bs occ).
Qed.

Lemma fitLoop_appends_floating (settings : UserSettings) (fuel : nat) (st st' : State) :
  fitLoop fuel settings st = Some st' ->
  exists l, placed st' = (placed st ++ l)%list /\ Forall (fun b => isLocked b = false) l.
Proof.
  apply (fitLoop_invariant settings
           (fun s => exists l, placed s = (placed st ++ l)%list /\
                               Forall (fun b => isLocked b = false) l)).
  - intros s s' (l & Hl & Hall) Hstep.
    destruct (step_cases _ _ _ Hstep) as
      [task rest i gap _ _ _ -> | task rest i largest fit _ _ _ _ _ _ _ _ ->
       | task rest _ _ ->]; simpl; [| | eauto].
    + exists (l ++ [floatingBlock task (gstart gap)])%list.
      rewrite Hl, app_assoc. split; [reflexivity |].
      apply Forall_app. split; [exact Hall | repeat constructor].
    + exists (l ++ [partABlock task (gstart largest) fit])%list.
      rewrite Hl, app_assoc. split; [reflexivity |].
      apply Forall_app. split; [exact Hall | repeat constructor].
  - exists []. rewrite app_nil_r. split; [reflexivity | constructor].
Qed.

(** X8.  The blocks come in two runs: first the locked blocks, one for each
    Anchor or Interrupt task that has a start time, in the order of the
    input; then the blocks that are not locked, in the order the loop placed
    them.  The result is not sorted by time. *)
Theorem locked_blocks_first (tasks : list Task) (settings : UserSettings)
    (r : Result) :
  rescheduleDay tasks settings = Some r ->
  exists locked floating,
    blocks r = (locked ++ floating)%list /\
    Forall (fun b => isLocked b = true) locked /\
    Forall (fun b => isLocked b = false) floating /\
    map taskId locked = map id (filter hasStart (fixedTasks tasks)).
Proof.
  intros Hr.
  destruct (rescheduleDay_Some _ _ _ Hr)
    as (fixedBlocks & occupied & gaps0 & st' & Hfixed & _ & Hloop & Hblocks & _).
  destruct (fitLoop_appends_floating _ _ _ _ Hloop) as (l & Hl & Hall).
  exists fixedBlocks, l. simpl in Hl. rewrite Hblocks, Hl.
  split; [reflexivity |]. split; [| split; [exact Hall |]].
  - apply Forall_forall. intros blk Hblk.
    destruct (mapFixed_facts _ _ _ _ Hfixed) as (H1 & _ & _).
    now destruct (H1 _ Hblk) as (t & start & _ & -> & _).
  - now apply mapFixed_ids with (settings := settings) (occ := occupied).
Qed.

Lemma locked_blocks_first_witness :
  exists r locked floating,
    rescheduleDay threeGaps (withBuffer 0) = Some r /\
    blocks r = (locked ++ floating)%list /\
    Forall (fun b => isLocked b = true) locked /\
    Forall (fun b => isLocked b = false) floating /\
    map taskId locked = ["1"; "2"; "3"].
Proof.
  destruct (locked_blocks_first threeGaps (withBuffer 0) _ eq_refl)
    as (locked & floating & H).
  eexists. exists locked, floating. split; [reflexivity | exact H].
Defined.

(** X16.  The task at the front of the queue (the most urgent, and the
    longest among those) goes to the earliest gap that is long enough, at the
    start of that gap: its block is the first one after the locked blocks. *)
Theorem first_task_gets_first_fit (tasks : list Task) (settings : UserSettings)
    (r : Result) (t : Task) (rest : list Task) (gaps0 : list Gap) (i : nat) (g : Gap) :
  rescheduleDay tasks settings = Some r ->
  floatingTasks tasks = t :: rest ->
  initialGaps tasks settings = Some gaps0 ->
  gaps0 !! i = Some g -> durationMinutes t <= duration g ->
  (forall j g', (j < i)%nat -> gaps0 !! j = Some g' -> duration g' < durationMinutes t) ->
  exists locked others,
    blocks r = (locked ++ floatingBlock t (gstart g) :: others)%list /\
    Forall (fun b => isLocked b = true) locked.
Proof.
  intros Hr Hq Hgaps Hi Hfit Hfirst.
  destruct (rescheduleDay_Some _ _ _ Hr)
    as (fixedBlocks & occupied & gaps0' & st' & Hfixed & Hgaps' & Hloop & Hblocks & _).
  assert (gaps0' = gaps0) by congruence. subst gaps0'.
  assert (Hff : firstFit t gaps0 = Some (i, g)).
  { unfold firstFit. apply list_find_Some. split; [exact Hi |]. split; [exact Hfit |].
    intros j g' Hj Hlt. specialize (Hfirst j g' Hlt Hj). lia. }
  rewrite Hq in Hloop.
  remember (loopBound (t :: rest)) as fuel eqn:Hfuel.
  destruct fuel as [| fuel]; [discriminate Hfuel |].
  cbn [fitLoop] in Hloop. unfold step in Hloop at 1.
  cbn [queue gaps placed rollover] in Hloop. rewrite Hff in Hloop.
  destruct (fitLoop_appends_floating _ _ _ _ Hloop) as (l & Hl & _). simpl in Hl.
  exists fixedBlocks, l. rewrite Hblocks, Hl, <- app_assoc. split; [reflexivity |].
  apply Forall_forall. intros blk Hblk.
  destruct (mapFixed_facts _ _ _ _ Hfixed) as (H1 & _ & _).
  now destruct (H1 _ Hblk) as (t' & start & _ & -> & _).
Qed.

Lemma first_task_gets_first_fit_witness :
  exists r locked others,
    rescheduleDay anchorAndTask (withBuffer 15) = Some r /\
    blocks r
    = (locked ++ floatingBlock (task "A" FLOATING 1 120 false None) 360 :: others)%list /\
    Forall (fun b => isLocked b = true) locked.
Proof.
  destruct (first_task_gets_first_fit anchorAndTask (withBuffer 15) _
              (task "A" FLOATING 1 120 false None) []
              [mkGap 360 525; mkGap 645 1380] 0 (mkGap 360 525)
              eq_refl eq_refl eq_refl eq_refl) as (locked & others & H).
  - simpl. lia.
  - intros j g' Hj. lia.
  - eexists. exists locked, others. split; [reflexivity | exact H].
Defined.

(** ** The buffer around the locked blocks *)

Lemma gaps0_buffer_locked (tasks : list Task) (settings : UserSettings)
    (fixedBlocks : list ScheduleBlock) (occupied : list Interval) (gaps0 : list Gap)
    (g : Gap) (blk : ScheduleBlock) :
  0 <= bufferMinutes settings ->
  (forall t, t ∈ tasks -> 0 < durationMinutes t) ->
  mapFixed settings (fixedTasks tasks) = Some (fixedBlocks, occupied) ->
  initialGaps tasks settings = Some gaps0 ->
  g ∈ gaps0 -> blk ∈ fixedBlocks ->
  gend g + bufferMinutes settings <= startTime blk \/
  endTime blk + bufferMinutes settings <= gstart g.
Proof.
  intros Hb Hpos Hfixed Hgaps Hg Hblk.
  destruct (mapFixed_facts _ _ _ _ Hfixed) as (H1 & _ & _).
  destruct (H1 _ Hblk) as (t & start & Ht & -> & Hocc).
  destruct (gaps0_shape tasks settings Hb Hpos _ _ _ Hfixed Hgaps) as [Hok _].
  rewrite Forall_forall in Hok.
  destruct (Hok _ Hg) as (H360 & Hne & _ & H1440).
  rewrite (gaps0_eq tasks settings _ _ _ Hfixed Hgaps) in Hg.
  destruct (mergeOccupied_facts (sortOccupied occupied) (sortOccupied_sorted _))
    as [Hsorted Hcover].
  assert (Hin : occupiedBy settings t start ∈ sortOccupied occupied)
    by (now rewrite sortOccupied_perm).
  pose proof (findGaps_apart 1380 _ _ 360 Hsorted (or_intror (Hcover _ Hin)) g Hg) as Hap.
  unfold occupiedBy in Hap. simpl in *. lia.
Qed.

Lemma locked_blocks_buffered (tasks : list Task) (settings : UserSettings)
    (r : Result) (bl bf : ScheduleBlock) :
  0 <= bufferMinutes settings -> positiveDurations tasks ->
  rescheduleDay tasks settings = Some r ->
  bl ∈ blocks r -> bf ∈ blocks r ->
  isLocked bl = true -> isLocked bf = false ->
  endTime bf + bufferMinutes settings <= startTime bl \/
  endTime bl + bufferMinutes settings <= startTime bf.
Proof.
  intros Hb Hpos Hr Hbl Hbf Hl Hf.
  destruct (rescheduleDay_layout _ _ _ Hb Hpos Hr)
    as (fixedBlocks & occupied & gaps0 & st' & Hfixed & Hgaps & Hblocks & HL & _).
  rewrite Hblocks in *.
  pose proof (layout_locked _ _ _ _ HL _ Hbl Hl) as Hin.
  destruct (Layout_floating_within _ _ _ _ _ HL Hbf Hf) as (_ & g0 & Hg0 & Hw1 & Hw2).
  assert (Hpos' : forall t, t ∈ tasks -> 0 < durationMinutes t)
    by (now apply Forall_forall).
  destruct (gaps0_buffer_locked _ _ _ _ _ _ _ Hb Hpos' Hfixed Hgaps Hg0 Hin); lia.
Qed.

(** X11.  The buffer is kept around the fixed tasks: for every input whose
    fixed start times read as integers, with a buffer that is not negative
    and positive durations, [rescheduleDay] returns a result in which a
    block that is not locked ends at least [bufferMinutes] before any locked
    block starts, or starts at least [bufferMinutes] after it ends. *)
Theorem buffer_around_locked_blocks (tasks : list Task) (settings : UserSettings) :
  readableStarts tasks ->
  0 <= bufferMinutes settings -> positiveDurations tasks ->
  exists r,
    rescheduleDay tasks settings = Some r /\
    forall bl bf,
      bl ∈ blocks r -> bf ∈ blocks r ->
      isLocked bl = true -> isLocked bf = false ->
      endTime bf + bufferMinutes settings <= startTime bl \/
      endTime bl + bufferMinutes settings <= startTime bf.
Proof.
  intros Hread Hb Hpos.
  destruct (rescheduleDay_readable tasks settings Hread) as [r Hr].
  exists r. split; [exact Hr |].
  intros bl bf. now apply (locked_blocks_buffered tasks settings r).
Qed.

Lemma buffer_around_locked_blocks_witness :
  exists r,
    rescheduleDay anchorAndTask (withBuffer 15) = Some r /\
    forall bl bf,
      bl ∈ blocks r -> bf ∈ blocks r ->
      isLocked bl = true -> isLocked bf = false ->
      endTime bf + bufferMinutes (withBuffer 15) <= startTime bl \/
      endTime bl + bufferMinutes (withBuffer 15) <= startTime bf.
Proof.
  apply (buffer_around_locked_blocks anchorAndTask (withBuffer 15)).
  - exact readableStarts_anchorAndTask.
  - simpl. lia.
  - repeat constructor.
Defined.

(** ** Why a task rolls over *)

Lemma Justified_step (settings : UserSettings) (st st' : State) :
  0 <= bufferMinutes settings ->
  Justified st -> step settings st = Some st' -> Justified st'.
Proof.
  intros Hb [Hqueue Hroll] Hstep.
  assert (Hshrink : forall i gap c g,
            gaps st !! i = Some gap -> 0 <= c ->
            g ∈ <[i := consume gap c]> (gaps st) ->
            exists g1, g1 ∈ gaps st /\ duration g <= duration g1).
  { intros i gap c g Hi Hc Hg. apply list_elem_of_lookup in Hg as [j Hj].
    apply list_lookup_insert_Some in Hj as [(-> & <- & _) | (_ & Hj)].
    - exists gap. split; [apply list_elem_of_lookup; eauto | simpl; lia].
    - exists g. split; [apply list_elem_of_lookup; eauto | lia]. }
  destruct (step_cases _ _ _ Hstep) as
    [task rest i gap Hq Hi Hfit -> |
     task rest i largest fit Hq Hi Hsmall _ _ H30 H15 Hfit -> |
     task rest Hq Hsmall ->]; rewrite Hq in Hqueue; split; simpl.
  - intros t Ht. apply Hqueue. now apply list_elem_of_further.
  - intros t g Ht Hg.
    assert (0 < durationMinutes task) by (apply Hqueue, list_elem_of_here).
    destruct (Hshrink i gap (durationMinutes task + bufferMinutes settings) g Hi
                ltac:(lia) Hg) as (g1 & Hg1 & Hle).
    specialize (Hroll t g1 Ht Hg1). lia.
  - assert (duration largest < durationMinutes task)
      by (apply Hsmall; apply list_elem_of_lookup; eauto).
    intros t Ht. apply elem_of_cons in Ht as [-> | Ht]; [simpl; lia |].
    apply Hqueue. now apply list_elem_of_further.
  - intros t g Ht Hg.
    destruct (Hshrink i largest (fit + bufferMinutes settings) g Hi
                ltac:(lia) Hg) as (g1 & Hg1 & Hle).
    specialize (Hroll t g1 Ht Hg1). lia.
  - intros t Ht. apply Hqueue. now apply list_elem_of_further.
  - intros t g Ht Hg. apply elem_of_app in Ht as [Ht | Ht]; [now apply Hroll |].
    apply list_elem_of_singleton in Ht. subst t. now apply Hsmall.
Qed.

Lemma rescheduleDay_finalState (tasks : list Task) (settings : UserSettings) :
  rescheduleDay tasks settings
  = match finalState tasks settings with
    | Some st => Some {| blocks := placed st; rolloverTasks := rollover st |}
    | None => None
    end.
Proof.
  unfold rescheduleDay, finalState.
  destruct (mapFixed settings (fixedTasks tasks)) as [[fixedBlocks occupied] |];
    [| reflexivity].
  destruct (initialGaps tasks settings) as [gaps0 |]; reflexivity.
Qed.

(** X12.  A task rolls over for a reason: with a buffer that is not negative
    and positive durations, when the loop ends every entry of the rollover
    list is longer than what is left of every gap. *)
Theorem rolled_over_tasks_fit_nowhere (tasks : list Task) (settings : UserSettings)
    (st : State) (t : Task) (g : Gap) :
  0 <= bufferMinutes settings -> positiveDurations tasks ->
  finalState tasks settings = Some st ->
  t ∈ rollover st -> g ∈ gaps st ->
  rescheduleDay tasks settings
  = Some {| blocks := placed st; rolloverTasks := rollover st |} /\
  duration g < durationMinutes t.
Proof.
  intros Hb Hpos Hfinal Ht Hg.
  split; [now rewrite rescheduleDay_finalState, Hfinal |].
  unfold finalState in Hfinal.
  destruct (mapFixed settings (fixedTasks tasks)) as [[fixedBlocks occupied] |];
    [| discriminate].
  destruct (initialGaps tasks settings) as [gaps0 |]; [| discriminate].
  assert (HJ : Justified st).
  { eapply (fitLoop_invariant settings Justified); [| | exact Hfinal].
    - intros s s'. now apply Justified_step.
    - split; simpl.
      + intros t' Ht'. rewrite floatingTasks_perm in Ht'.
        apply list_elem_of_filter in Ht' as [_ Ht'].
        unfold positiveDurations in Hpos. rewrite Forall_forall in Hpos. auto.
      + intros t' g' Ht'. now apply elem_of_nil in Ht'. }
  destruct HJ as [_ Hroll]. now apply Hroll.
Qed.

Lemma rolled_over_tasks_fit_nowhere_witness :
  exists st t g,
    finalState gap24Tasks (withBuffer 10) = Some st /\
    rollover st = [t] /\ gaps st = [g] /\
    duration g < durationMinutes t.
Proof.
  do 3 eexists. split; [vm_compute; reflexivity |].
  split; [reflexivity |]. split; [reflexivity |].
  eapply (rolled_over_tasks_fit_nowhere gap24Tasks (withBuffer 10)).
  - simpl. lia.
  - repeat constructor.
  - vm_compute. reflexivity.
  - apply list_elem_of_here.
  - apply list_elem_of_here.
Defined.

(** ** The settings that count *)

Lemma mapFixed_buffer (s s' : UserSettings) (fixed : list Task) :
  bufferMinutes s = bufferMinutes s' -> mapFixed s fixed = mapFixed s' fixed.
Proof.
  intros H. induction fixed as [| t fixed IH]; simpl; [reflexivity |].
  rewrite IH. unfold occupiedBy. now rewrite H.
Qed.

Lemma step_buffer (s s' : UserSettings) (st : State) :
  bufferMinutes s = bufferMinutes s' -> step s st = step s' st.
Proof. intros H. unfold step. now rewrite H. Qed.

Lemma fitLoop_buffer (s s' : UserSettings) (fuel : nat) (st : State) :
  bufferMinutes s = bufferMinutes s' -> fitLoop fuel s st = fitLoop fuel s' st.
Proof.
  intros H. revert st. induction fuel as [| fuel IH]; intros st; simpl;
    rewrite (step_buffer s s' st H); [reflexivity |].
  destruct (step s' st); [apply IH | reflexivity].
Qed.

(** X13.  The configured work hours play no part: two settings with the same
    [bufferMinutes] give the same schedule, whatever their [workStart] and
    [workEnd]. *)
Theorem work_hours_are_ignored (tasks : list Task) (s s' : UserSettings) :
  bufferMinutes s = bufferMinutes s' ->
  rescheduleDay tasks s = rescheduleDay tasks s'.
Proof.
  intros H. unfold rescheduleDay.
  rewrite !initialGaps_eq, (mapFixed_buffer s s' _ H).
  destruct (mapFixed s' (fixedTasks tasks)) as [[fixedBlocks occupied] |];
    [| reflexivity].
  simpl. now rewrite (fitLoop_buffer s s' _ _ H).
Qed.

Lemma work_hours_are_ignored_witness :
  rescheduleDay anchorAndTask (withBuffer 15)
  = rescheduleDay anchorAndTask
      {| workStart := "11:00"; workEnd := "12:00"; bufferMinutes := 15 |}.
Proof.
  exact (work_hours_are_ignored anchorAndTask (withBuffer 15)
           {| workStart := "11:00"; workEnd := "12:00"; bufferMinutes := 15 |} eq_refl).
Defined.

(** ** The timeline of [App.tsx] *)

Lemma floating_block_bounds (tasks : list Task) (settings : UserSettings)
    (r : Result) (blk : ScheduleBlock) :
  0 <= bufferMinutes settings -> positiveDurations tasks ->
  rescheduleDay tasks settings = Some r ->
  (forall lb, lb ∈ blocks r -> isLocked lb = true -> startTime lb <= 1380) ->
  blk ∈ blocks r -> isLocked blk = false ->
  360 <= startTime blk /\ startTime blk < endTime blk /\ endTime blk <= 1380.
Proof.
  intros Hb Hpos Hr Hstarts Hblk Hfloat.
  destruct (rescheduleDay_layout _ _ _ Hb Hpos Hr)
    as (fixedBlocks & occupied & gaps0 & st' & Hfixed & Hgaps & Hblocks & HL & _ & Hok
        & _ & Hkept).
  rewrite Hblocks in Hblk.
  destruct (Layout_floating_within _ _ _ _ _ HL Hblk Hfloat) as (Hne & g0 & Hg0 & Hw1 & Hw2).
  assert (Hend : Forall (fun g => gend g <= 1380) gaps0).
  { eapply gaps_end_in_window; eauto.
    intros lb Hlb. apply Hstarts; [now apply Hkept |].
    destruct (mapFixed_facts _ _ _ _ Hfixed) as (H1 & _ & _).
    now destruct (H1 _ Hlb) as (t & start & _ & -> & _). }
  rewrite Forall_forall in Hok, Hend.
  destruct (Hok _ Hg0) as (H360 & _). specialize (Hend _ Hg0). lia.
Qed.

(** X15.  A block that is not locked is drawn inside the timeline: with a
    buffer that is not negative, positive durations and no locked block
    starting after 23:00, [getBlockStyle] gives it a [top] that is not
    negative and a positive [height], and [top + height] stays within
    [VIEW_HEIGHT]; both are twice the minutes (from 06:00, and of the
    block). *)
Theorem floating_blocks_drawn_inside (tasks : list Task) (settings : UserSettings)
    (r : Result) (blk : ScheduleBlock) :
  0 <= bufferMinutes settings -> positiveDurations tasks ->
  rescheduleDay tasks settings = Some r ->
  (forall lb, lb ∈ blocks r -> isLocked lb = true -> startTime lb <= 1380) ->
  blk ∈ blocks r -> isLocked blk = false ->
  exists top height viewHeight,
    getBlockStyle blk
    = Some {| cssTop := toString top ++ "px"; cssHeight := toString height ++ "px" |} /\
    VIEW_HEIGHT = Some viewHeight /\
    top = 2 * (startTime blk - 360) /\ height = 2 * (endTime blk - startTime blk) /\
    0 <= top /\ 0 < height /\ top + height <= viewHeight.
Proof.
  intros Hb Hpos Hr Hstarts Hblk Hfloat.
  destruct (floating_block_bounds _ _ _ _ Hb Hpos Hr Hstarts Hblk Hfloat)
    as (H1 & H2 & H3).
  exists ((startTime blk - 360) * 2), ((endTime blk - startTime blk) * 2), 2040.
  split; [reflexivity |]. split; [reflexivity |]. lia.
Qed.

Lemma floating_blocks_drawn_inside_witness :
  exists r anchor blk,
    rescheduleDay anchorAndTask (withBuffer 15) = Some r /\
    blocks r = [anchor; blk] /\
    exists top height viewHeight,
      getBlockStyle blk
      = Some {| cssTop := toString top ++ "px"; cssHeight := toString height ++ "px" |} /\
      VIEW_HEIGHT = Some viewHeight /\
      top = 2 * (startTime blk - 360) /\ height = 2 * (endTime blk - startTime blk) /\
      0 <= top /\ 0 < height /\ top + height <= viewHeight.
Proof.
  do 3 eexists. split; [vm_compute; reflexivity |]. split; [reflexivity |].
  eapply (floating_blocks_drawn_inside anchorAndTask (withBuffer 15)).
  - simpl. lia.
  - repeat constructor.
  - vm_compute. reflexivity.
  - intros lb Hlb _. simpl in Hlb.
    apply elem_of_cons in Hlb as [-> | Hlb]; [simpl; lia |].
    apply list_elem_of_singleton in Hlb. subst lb. simpl. lia.
  - apply list_elem_of_further, list_elem_of_here.
  - reflexivity.
Defined.

(** ** Adding a task that sorts last *)

Lemma insertBy_snoc {A : Type} (cmp : A -> A -> Z) (x t : A) (l : list A) :
  cmp x t <= 0 -> insertBy cmp x (l ++ [t]) = (insertBy cmp x l ++ [t])%list.
Proof.
  intros Hx. induction l as [| y l IH]; simpl.
  - destruct (Z.leb_spec (cmp x t) 0); [reflexivity | lia].
  - destruct (cmp x y <=? 0); [reflexivity |]. now rewrite IH.
Qed.

Lemma sortBy_snoc {A : Type} (cmp : A -> A -> Z) (t : A) (l : list A) :
  (forall x, x ∈ l -> cmp x t <= 0) ->
  sortBy cmp (l ++ [t]) = (sortBy cmp l ++ [t])%list.
Proof.
  induction l as [| x l IH]; intros H; simpl; [reflexivity |].
  rewrite IH by (intros y Hy; apply H; now apply list_elem_of_further).
  apply insertBy_snoc. apply H. apply list_elem_of_here.
Qed.

Lemma step_queuedBehind (settings : UserSettings) (extra : list Task) (st st' : State) :
  step settings st = Some st' ->
  step settings (queuedBehind extra st) = Some (queuedBehind extra st').
Proof.
  unfold step, queuedBehind. cbn [queue gaps placed rollover].
  destruct (queue st) as [| task rest]; [discriminate |]. cbn [app].
  destruct (firstFit task (gaps st)) as [[i gap] |].
  - intros H. inversion H; subst st'. reflexivity.
  - destruct (isSplittable task && (30 <? durationMinutes task));
      [| intros H; inversion H; subst st'; reflexivity].
    destruct (largestGap (gaps st)) as [[i largest] |];
      [| intros H; inversion H; subst st'; reflexivity].
    destruct (15 <=? duration largest);
      [| intros H; inversion H; subst st'; reflexivity].
    destruct (Z.max 15 (duration largest - bufferMinutes settings) <? 15);
      intros H; inversion H; subst st'; reflexivity.
Qed.

Lemma fitLoop_queuedBehind (settings : UserSettings) (extra : list Task)
    (fuel : nat) (st st' : State) :
  fitLoop fuel settings st = Some st' ->
  exists k, forall more,
    fitLoop (k + more) settings (queuedBehind extra st)
    = fitLoop more settings (queuedBehind extra st').
Proof.
  revert st. induction fuel as [| fuel IH]; intros st; simpl.
  - destruct (step settings st); [discriminate |].
    intros H. inversion H; subst st'. exists O. reflexivity.
  - destruct (step settings st) as [st1 |] eqn:Hstep.
    + intros H. destruct (IH st1 H) as [k Hk]. exists (S k). intros more. simpl.
      now rewrite (step_queuedBehind _ extra _ _ Hstep).
    + intros H. inversion H; subst st'. exists O. reflexivity.
Qed.

Lemma fitLoop_rollover_grows (settings : UserSettings) (fuel : nat) (st st' : State) :
  fitLoop fuel settings st = Some st' ->
  exists l, rollover st' = (rollover st ++ l)%list.
Proof.
  apply (fitLoop_invariant settings (fun s => exists l, rollover s = (rollover st ++ l)%list)).
  - intros s s' [l Hl] Hstep.
    destruct (step_cases _ _ _ Hstep) as
      [task rest i gap _ _ _ -> | task rest i largest fit _ _ _ _ _ _ _ _ ->
       | task rest _ _ ->]; simpl; eauto.
    exists (l ++ [task])%list. now rewrite Hl, app_assoc.
  - exists []. now rewrite app_nil_r.
Qed.

(** X17.  A new Floating task that sorts after every waiting task (a lower
    priority, or the same priority and no longer) moves nothing that was
    scheduled: after [addTask] the blocks and the rollover list of the old
    schedule are still there, in the same order, and what the new task gets
    comes after them. *)
Theorem added_last_task_disturbs_nothing (tasks : list Task) (settings : UserSettings)
    (r : Result) (t : Task) :
  isPending t = true ->
  (forall x, x ∈ tasks -> isPending x = true -> taskBefore x t) ->
  rescheduleDay tasks settings = Some r ->
  exists r' newBlocks newRollover,
    rescheduleDay (addTask tasks [t]) settings = Some r' /\
    blocks r' = (blocks r ++ newBlocks)%list /\
    rolloverTasks r' = (rolloverTasks r ++ newRollover)%list.
Proof.
  intros Hp Hlast Hr.
  destruct (rescheduleDay_Some _ _ _ Hr)
    as (fixedBlocks & occupied & gaps0 & st' & Hfixed & Hgaps & Hloop & Hblocks & Hroll).
  assert (Hfix : fixedTasks (addTask tasks [t]) = fixedTasks tasks).
  { unfold fixedTasks, addTask. rewrite filter_app.
    rewrite (filter_cons_False _ t); [apply app_nil_r |].
    unfold isFixed. rewrite (isPending_type _ Hp). simpl. tauto. }
  assert (Hqueue : floatingTasks (addTask tasks [t]) = (floatingTasks tasks ++ [t])%list).
  { unfold floatingTasks, addTask. rewrite filter_app.
    rewrite (filter_cons_True _ t) by (now rewrite Hp). rewrite filter_nil.
    apply sortBy_snoc. intros x Hx. apply list_elem_of_filter in Hx as [Hxp Hx].
    assert (Hb : taskBefore x t) by (apply Hlast; [exact Hx | now destruct (isPending x)]).
    unfold taskBefore in Hb. unfold compareTasks.
    destruct (Z.eqb_spec (priority x) (priority t)); lia. }
  set (st0 := {| queue := floatingTasks tasks; gaps := gaps0;
                 placed := fixedBlocks; rollover := [] |}) in *.
  destruct (fitLoop_queuedBehind settings [t] _ _ _ Hloop) as [k Hk].
  destruct (fitLoop_enough_fuel settings (loopBound (queue (queuedBehind [t] st')))
              (queuedBehind [t] st') (Nat.le_refl _)) as [st2 Hst2].
  specialize (Hk (loopBound (queue (queuedBehind [t] st')))). rewrite Hst2 in Hk.
  destruct (fitLoop_enough_fuel settings (loopBound (floatingTasks tasks ++ [t]))
              (queuedBehind [t] st0) (Nat.le_refl _)) as [st3 Hst3].
  assert (st3 = st2) by (eapply fitLoop_fuel_irrelevant; eauto). subst st3.
  destruct (fitLoop_appends_floating _ _ _ _ Hst2) as (bs & Hbs & _).
  destruct (fitLoop_rollover_grows _ _ _ _ Hst2) as (ro & Hro).
  exists {| blocks := placed st2; rolloverTasks := rollover st2 |}, bs, ro.
  split; [| split].
  - unfold rescheduleDay.
    assert (Hgaps' : initialGaps (addTask tasks [t]) settings = Some gaps0).
    { rewrite initialGaps_eq, Hfix, <- initialGaps_eq. exact Hgaps. }
    rewrite Hfix, Hfixed, Hgaps', Hqueue. cbn [queue].
    unfold queuedBehind, st0 in Hst3. cbn [queue gaps placed rollover] in Hst3.
    now rewrite Hst3.
  - simpl. now rewrite Hblocks, Hbs.
  - simpl. now rewrite Hroll, Hro.
Qed.

Lemma added_last_task_disturbs_nothing_witness :
  exists r r' newBlocks newRollover,
    rescheduleDay anchorAndTask (withBuffer 15) = Some r /\
    rescheduleDay (addTask anchorAndTask [task "B" FLOATING 3 60 false None])
      (withBuffer 15) = Some r' /\
    blocks r' = (blocks r ++ newBlocks)%list /\
    rolloverTasks r' = (rolloverTasks r ++ newRollover)%list.
Proof.
  assert (Hlast : forall x, x ∈ anchorAndTask -> isPending x = true ->
            taskBefore x (task "B" FLOATING 3 60 false None)).
  { intros x Hx Hpx.
    apply elem_of_cons in Hx as [-> | Hx]; [discriminate Hpx |].
    apply list_elem_of_singleton in Hx. subst x. left. simpl. lia. }
  destruct (added_last_task_disturbs_nothing anchorAndTask (withBuffer 15) _
              (task "B" FLOATING 3 60 false None) eq_refl Hlast eq_refl)
    as (r' & bs & ro & H).
  eexists. exists r', bs, ro. split; [reflexivity | exact H].
Defined.

(** ** The tasks that do not count *)

Lemma filter_cons_bool {A : Type} (f : A -> bool) (x : A) (l : list A) :
  filter f (x :: l) = if f x then x :: filter f l else filter f l.
Proof.
  destruct (f x) eqn:Hf.
  - apply filter_cons_True. now rewrite Hf.
  - apply filter_cons_False. rewrite Hf. simpl. tauto.
Qed.

Lemma isPending_not_fixed (t : Task) : isPending t = true -> isFixed t = false.
Proof. intros H. unfold isFixed. now rewrite (isPending_type _ H). Qed.

Lemma floatingTasks_counting (tasks : list Task) :
  floatingTasks (filter countsForSchedule tasks) = floatingTasks tasks.
Proof.
  unfold floatingTasks. f_equal.
  induction tasks as [| t tasks IH]; [reflexivity |].
  rewrite !filter_cons_bool. unfold countsForSchedule at 1.
  destruct (isPending t) eqn:Hp; simpl.
  - rewrite filter_cons_bool, Hp. now rewrite IH.
  - destruct (isFixed t && hasStart t); [| exact IH].
    rewrite filter_cons_bool, Hp. exact IH.
Qed.

Lemma mapFixed_counting (settings : UserSettings) (tasks : list Task) :
  mapFixed settings (fixedTasks (filter countsForSchedule tasks))
  = mapFixed settings (fixedTasks tasks).
Proof.
  unfold fixedTasks. induction tasks as [| t tasks IH]; [reflexivity |].
  rewrite !filter_cons_bool. unfold countsForSchedule at 1.
  destruct (isPending t) eqn:Hp; simpl.
  - rewrite filter_cons_bool, (isPending_not_fixed _ Hp). exact IH.
  - destruct (isFixed t) eqn:Hf; simpl; [| exact IH].
    unfold hasStart. destruct (startOf t) as [time |] eqn:Hs.
    + rewrite filter_cons_bool, Hf. simpl. now rewrite Hs, IH.
    + simpl. exact IH.
Qed.

(** X18.  A Floating task that is Completed and an Anchor or Interrupt task
    without a start time count for nothing: the schedule of a task list is
    the schedule of the list without them, wherever they stand in it. *)
Theorem ignored_tasks_change_nothing (tasks : list Task) (settings : UserSettings) :
  rescheduleDay (filter countsForSchedule tasks) settings
  = rescheduleDay tasks settings.
Proof.
  unfold rescheduleDay.
  rewrite !initialGaps_eq, mapFixed_counting, floatingTasks_counting.
  reflexivity.
Qed.

(** ** What a rollover entry is *)

(** X19.  A task rolls over unchanged unless it has been split: every entry
    of [rolloverTasks] is a task of the input as it was given (Floating and
    not Completed), or a splittable Part 2 remainder, whose title ends in
    " (Part 2)". *)
Theorem rollover_entries_unchanged_or_part2 (tasks : list Task)
    (settings : UserSettings) (r : Result) (t : Task) :
  rescheduleDay tasks settings = Some r ->
  t ∈ rolloverTasks r ->
  (t ∈ tasks /\ isPending t = true) \/
  (isSplittable t = true /\ exists before, title t = before ++ " (Part 2)").
Proof.
  intros Hr Ht.
  destruct (rescheduleDay_Some _ _ _ Hr)
    as (fixedBlocks & occupied & gaps0 & st' & _ & _ & Hloop & _ & Hroll).
  rewrite Hroll in Ht.
  assert (Hinv : forall x, x ∈ (queue st' ++ rollover st')%list ->
            (x ∈ tasks /\ isPending x = true) \/
            (isSplittable x = true /\ exists before, title x = before ++ " (Part 2)")).
  { eapply (fitLoop_invariant settings
              (fun s => forall x, x ∈ (queue s ++ rollover s)%list ->
                 (x ∈ tasks /\ isPending x = true) \/
                 (isSplittable x = true /\
                  exists before, title x = before ++ " (Part 2)")));
      [| | exact Hloop].
    - intros s s' Hs Hstep.
      destruct (step_cases _ _ _ Hstep) as
        [task rest i gap Hq _ _ -> | task rest i largest fit Hq _ _ _ Hsp _ _ _ ->
         | task rest Hq _ ->]; rewrite Hq in Hs; simpl; intros x Hx.
      + apply Hs. now apply list_elem_of_further.
      + apply elem_of_cons in Hx as [-> | Hx].
        * right. simpl. split; [exact Hsp | eauto].
        * apply Hs. now apply list_elem_of_further.
      + apply Hs. rewrite app_assoc in Hx.
        apply elem_of_app in Hx as [Hx | Hx]; [now apply list_elem_of_further |].
        apply list_elem_of_singleton in Hx. subst x. apply list_elem_of_here.
    - simpl. intros x Hx. rewrite app_nil_r in Hx. left.
      rewrite floatingTasks_perm in Hx. apply list_elem_of_filter in Hx as [Hp Hx].
      split; [exact Hx | now destruct (isPending x)]. }
  apply Hinv. apply elem_of_app. now right.
Qed.

Lemma rollover_entries_unchanged_or_part2_witness :
  exists r t,
    rescheduleDay longTask (withBuffer 0) = Some r /\ rolloverTasks r = [t] /\
    ((t ∈ longTask /\ isPending t = true) \/
     (isSplittable t = true /\ exists before, title t = before ++ " (Part 2)")).
Proof.
  do 2 eexists. split; [vm_compute; reflexivity |]. split; [reflexivity |].
  eapply (rollover_entries_unchanged_or_part2 longTask (withBuffer 0)).
  - vm_compute. reflexivity.
  - apply list_elem_of_here.
Defined.
